(** * smart_notes.py: dual-path retrieval and embedding sync

    A shallow embedding of [SmartNotesDB] (src/smart_notes.py): the
    semantic search with its FTS5 fallback, and the batched embedding
    sync ([_init_database], which only creates the tables, is left out).  Python exceptions, the log, the calls made to the embedding
    provider and the [note_embeddings] table are explicit state; SQLite,
    the sqlite-vss extension, the FTS5 index and the OpenAI client are
    external collaborators whose answers are read from a record of
    oracles. *)

From Stdlib Require Import ZArith QArith Lia Sorted.
From stdpp Require Import base gmap list pretty.

Local Open Scope string_scope.
Local Open Scope Z_scope.
Local Open Scope list_scope.

(** ** Exceptions *)

(** The exception classes that can travel through the code.
    [RetrievalError] is the class named by the specification; no statement
    of smart_notes.py constructs it. *)
Inductive exc_class : Type :=
  | Sqlite3OperationalError   (* sqlite3.OperationalError *)
  | Sqlite3Error              (* any other sqlite3.Error *)
  | ProviderError             (* raised by client.embeddings.create *)
  | RetrievalError
  | ValueError
  | IndexError.

Record exception : Type := Exc { exc_cls : exc_class; exc_msg : string }.

(** [except sqlite3.OperationalError] *)
Definition is_OperationalError (e : exception) : bool :=
  match exc_cls e with Sqlite3OperationalError => true | _ => false end.

(** [except Exception] *)
Definition is_Exception (e : exception) : bool := true.

Definition is_RetrievalError (e : exception) : bool :=
  match exc_cls e with RetrievalError => true | _ => false end.

Definition is_ProviderError (e : exception) : bool :=
  match exc_cls e with ProviderError => true | _ => false end.

(** What a call does: it returns a value or raises. *)
Inductive outcome (A : Type) : Type :=
  | Returned (a : A)
  | Raised (e : exception).
Arguments Returned {A} a.
Arguments Raised {A} e.

(** ** Logging *)

Inductive level : Type := INFO | WARNING | ERROR.

(** ** Search results *)

(** [@dataclass SearchResult].  A score is a finite SQLite REAL; it is
    modelled by the rational it denotes ([rank * -1] is exact). *)
Record SearchResult : Type := mkSearchResult {
  title : string;
  content : string;
  distance : Q;
  note_id : Z
}.

(** ** SQL helpers *)

(** [ORDER BY key ASC]: an insertion sort on the key; rows with equal keys
    keep the order in which the statement produced them. *)
Fixpoint insert_by {A : Type} (key : A -> Q) (x : A) (l : list A) : list A :=
  match l with
  | [] => [x]
  | y :: l' =>
      if Qle_bool (key x) (key y) then x :: y :: l'
      else y :: insert_by key x l'
  end.

Definition order_by {A : Type} (key : A -> Q) (l : list A) : list A :=
  foldr (insert_by key) [] l.

(** [LIMIT k]: SQLite reads a negative limit as no limit. *)
Definition sql_limit {A : Type} (k : Z) (l : list A) : list A :=
  if k <? 0 then l else take (Z.to_nat k) l.

(** [hits JOIN notes n ON hit.id = n.id]: one output row per pair of a
    hit and a note with the same id; a hit without a note disappears. *)
Definition join_notes (hits : list (Z * Q)) (notes : list (Z * string * string))
  : list (Z * string * string * Q) :=
  flat_map
    (fun hit : Z * Q =>
       map (fun n : Z * string * string => (n.1.1, n.1.2, n.2, hit.2))
           (List.filter (fun n : Z * string * string => n.1.1 =? hit.1) notes))
    hits.

(** ** Python helpers *)

Definition len {A : Type} (l : list A) : Z := Z.of_nat (length l).

(** [l[i:j]] for [0 <= i <= j] (the only slices the code takes). *)
Definition slice {A : Type} (l : list A) (i j : Z) : list A :=
  take (Z.to_nat (j - i)) (drop (Z.to_nat i) l).

Fixpoint range_loop (fuel : nat) (i stop step : Z) : list Z :=
  match fuel with
  | O => []
  | S fuel' =>
      if i <? stop then i :: range_loop fuel' (i + step) stop step else []
  end.

(** [range(0, stop, step)]: [ValueError] for a zero step, empty for a
    negative one (the stop is a length, so never negative). *)
Definition py_range (stop step : Z) : outcome (list Z) :=
  if step =? 0 then Raised (Exc ValueError "range() arg 3 must not be zero")
  else if step <? 0 then Returned []
  else Returned (range_loop (Z.to_nat stop) 0 stop step).

(** ** The engine *)

Section Engine.

(** [vector] is an embedding as the provider returns it (a list of
    floats), [blob] the bytes stored in the table, and [tobytes] stands for
    [np.array(v, dtype=np.float32).tobytes()]. *)
Context {vector blob : Type} (tobytes : vector -> blob).

(** The observable state: the committed rows of [note_embeddings], the
    rows as the open connection sees them (uncommitted writes included),
    the log, the inputs of the calls made to [client.embeddings.create],
    and the number of [time.sleep(0.1)] pauses. *)
Record world : Type := World {
  note_embeddings : gmap Z blob;
  conn_rows : gmap Z blob;
  log : list (level * string);
  requests : list (list string);
  sleeps : nat
}.

(** The external collaborators. *)
Record collaborators : Type := Collaborators {
  (** [client.embeddings.create(model, input)]; the first argument is the
      number of calls made before this one. *)
  embeddings_create : nat -> string -> list string -> outcome (list vector);
  (** the rows [(id, title, content)] of the [notes] table *)
  notes_table : list (Z * string * string);
  (** whether [SELECT ... FROM notes] raises *)
  select_notes_error : option exception;
  (** [vss_search(note_embeddings, blob, limit)]: [(id, distance)] rows, or
      the error of the statement (extension not loaded, table missing) *)
  vss_search : gmap Z blob -> blob -> Z -> outcome (list (Z * Q));
  (** [notes_fts MATCH query]: [(rowid, rank)] rows, or the error *)
  fts_match : string -> outcome (list (Z * Q));
  (** whether [INSERT OR REPLACE INTO note_embeddings] raises *)
  insert_error : Z -> blob -> option exception;
  (** whether [conn.commit()] of these rows raises *)
  commit_error : gmap Z blob -> option exception
}.

Variable C : collaborators.

(** *** A state and exception monad *)

Definition M (A : Type) : Type := world -> outcome A * world.

Definition ret {A : Type} (a : A) : M A := fun w => (Returned a, w).

Definition raise {A : Type} (e : exception) : M A := fun w => (Raised e, w).

Definition bind {A B : Type} (m : M A) (k : A -> M B) : M B :=
  fun w =>
    match m w with
    | (Returned a, w') => k a w'
    | (Raised e, w') => (Raised e, w')
    end.

(** [try: body except <catches> as e: handler e] *)
Definition try_except {A : Type} (body : M A) (catches : exception -> bool)
    (handler : exception -> M A) : M A :=
  fun w =>
    match body w with
    | (Returned a, w') => (Returned a, w')
    | (Raised e, w') => if catches e then handler e w' else (Raised e, w')
    end.

Notation "x <- m ;; k" := (bind m (fun x => k))
  (at level 100, m at next level, right associativity).
Notation "m ;; k" := (bind m (fun _ => k))
  (at level 100, right associativity).

Fixpoint for_each {A : Type} (l : list A) (body : A -> M unit) : M unit :=
  match l with
  | [] => ret tt
  | x :: l' => body x ;; for_each l' body
  end.

Definition logger (lv : level) (msg : string) : M unit :=
  fun w => (Returned tt, World (note_embeddings w) (conn_rows w)
                          (log w ++ [(lv, msg)]) (requests w) (sleeps w)).

Definition time_sleep : M unit :=
  fun w => (Returned tt, World (note_embeddings w) (conn_rows w) (log w)
                          (requests w) (S (sleeps w))).

(** [with self.get_connection() as conn]: a fresh connection sees the
    committed rows; closing it drops whatever was not committed. *)
Definition connect : M unit :=
  fun w => (Returned tt, World (note_embeddings w) (note_embeddings w) (log w)
                          (requests w) (sleeps w)).

Definition with_connection {A : Type} (body : M A) : M A :=
  fun w =>
    match body (connect w).2 with
    | (r, w') => (r, (connect w').2)
    end.

(** [self.client.embeddings.create(model=model, input=texts)] *)
Definition client_embeddings_create (model : string) (texts : list string)
  : M (list vector) :=
  fun w =>
    let w' := World (note_embeddings w) (conn_rows w) (log w)
                    (requests w ++ [texts]) (sleeps w) in
    (embeddings_create C (length (requests w)) model texts, w').

(** [cur.execute("INSERT OR REPLACE INTO note_embeddings (id, embedding)
    VALUES (?, ?)", (note_id, blob))] *)
Definition execute_insert (id : Z) (b : blob) : M unit :=
  fun w =>
    match insert_error C id b with
    | Some e => (Raised e, w)
    | None => (Returned tt, World (note_embeddings w) (<[id := b]> (conn_rows w))
                             (log w) (requests w) (sleeps w))
    end.

Definition conn_commit : M unit :=
  fun w =>
    match commit_error C (conn_rows w) with
    | Some e => (Raised e, w)
    | None => (Returned tt, World (conn_rows w) (conn_rows w) (log w)
                             (requests w) (sleeps w))
    end.

Definition conn_rollback : M unit :=
  fun w => (Returned tt, World (note_embeddings w) (note_embeddings w) (log w)
                          (requests w) (sleeps w)).

Definition embedding_model : string := "text-embedding-3-small".

(** *** Retrieval *)

(** [input=text] is a single string: a request of one text, answered by
    [response.data[0]]. *)
Definition _get_embedding_cached (model text : string) : M vector :=
  try_except
    (response <- client_embeddings_create model [text] ;;
     match response with
     | d :: _ => ret d
     | [] => raise (Exc IndexError "list index out of range")
     end)
    is_Exception
    (fun e => logger ERROR ("Error generating embedding: " +:+ exc_msg e) ;;
              raise e).

Definition row_result (r : Z * string * string * Q) : SearchResult :=
  {| note_id := r.1.1.1; title := r.1.1.2; content := r.1.2; distance := r.2 |}.

(** The FTS5 statement of [fallback_text_search]: the rows are ordered by
    the index's own [rank] column and cut at [limit]; the selected fourth
    column is [rank * -1]. *)
Definition execute_fts (query : string) (limit : Z)
  : M (list (Z * string * string * Q)) :=
  fun w =>
    match fts_match C query with
    | Raised e => (Raised e, w)
    | Returned hits =>
        let rows := join_notes hits (notes_table C) in
        let ordered := sql_limit limit (order_by (fun r => r.2) rows) in
        (Returned (map (fun r : Z * string * string * Q => (r.1, r.2 * (-1 # 1))%Q)
                  ordered), w)
    end.

Definition fallback_text_search (query : string) (limit : Z)
  : M (list SearchResult) :=
  with_connection
    (results <- execute_fts query limit ;;
     ret (map row_result results)).

(** The vss statement of [semantic_search]: the neighbours returned by
    [vss_search] are joined with [note_embeddings] and [notes] and ordered
    by ascending distance. *)
Definition execute_vss (b : blob) (limit : Z)
  : M (list (Z * string * string * Q)) :=
  fun w =>
    match vss_search C (conn_rows w) b limit with
    | Raised e => (Raised e, w)
    | Returned nn =>
        let stored :=
          List.filter (fun hit : Z * Q =>
                         match conn_rows w !! hit.1 with
                         | Some _ => true | None => false end) nn in
        (Returned (order_by (fun r => r.2) (join_notes stored (notes_table C))), w)
    end.

(** The body of the [try] of [semantic_search]. *)
Definition semantic_attempt (query : string) (limit : Z)
  : M (list SearchResult) :=
  embedding <- _get_embedding_cached embedding_model query ;;
  let b := tobytes embedding in
  with_connection
    (results <- execute_vss b limit ;;
     ret (map row_result results)).

Definition semantic_search (query : string) (limit : Z)
  : M (list SearchResult) :=
  try_except
    (semantic_attempt query limit)
    is_OperationalError
    (fun e => logger ERROR ("Database error during search: " +:+ exc_msg e) ;;
              fallback_text_search query limit).

(** *** Embedding sync *)

Definition batch_texts (notes : list (Z * string)) (batch_size i : Z)
  : list string :=
  map snd (slice notes i (i + batch_size)).

Definition processed_message (notes : list (Z * string)) (batch_size i : Z)
  : string :=
  "Processed batch " +:+ pretty (i / batch_size + 1) +:+ "/"
    +:+ pretty ((len notes - 1) / batch_size + 1).

Definition batch_error_message (e : exception) : string :=
  "Error processing batch: " +:+ exc_msg e.

(** The body of the [try] inside the loop: one provider call for the
    batch, one insert per pair of [zip(batch, response.data)], a commit. *)
Definition batch_attempt (notes : list (Z * string)) (batch_size i : Z)
  : M unit :=
  let batch := slice notes i (i + batch_size) in
  let texts := map snd batch in
  response <- client_embeddings_create embedding_model texts ;;
  for_each (zip batch response)
    (fun p : (Z * string) * vector => execute_insert p.1.1 (tobytes p.2)) ;;
  conn_commit ;;
  logger INFO (processed_message notes batch_size i).

(** The body of the [for i in range(0, len(notes), batch_size)] loop. *)
Definition process_batch (notes : list (Z * string)) (batch_size i : Z)
  : M unit :=
  try_except
    (batch_attempt notes batch_size i)
    is_Exception
    (fun e => logger ERROR (batch_error_message e) ;; conn_rollback) ;;
  time_sleep.

Definition add_embeddings_batch (notes : list (Z * string)) (batch_size : Z)
  : M unit :=
  with_connection
    (match py_range (len notes) batch_size with
     | Raised e => raise e
     | Returned starts => for_each starts (process_batch notes batch_size)
     end).

Definition select_notes : M (list (Z * string)) :=
  fun w =>
    match select_notes_error C with
    | Some e => (Raised e, w)
    | None =>
        (Returned (map (fun n : Z * string * string => (n.1.1, n.1.2 +:+ " " +:+ n.2))
                  (notes_table C)), w)
    end.

Definition update_all_embeddings : M unit :=
  with_connection
    (rows <- select_notes ;;
     let notes_data := map (fun row : Z * string => (row.1, row.2)) rows in
     logger INFO ("Updating embeddings for " +:+ pretty (len notes_data)
                  +:+ " notes") ;;
     add_embeddings_batch notes_data 10).

(** The rows the connection sees after the inserts of a batch, and the
    error of the first insert that raises, if one does. *)
Fixpoint write_rows (rows : gmap Z blob) (l : list ((Z * string) * vector))
  : option exception * gmap Z blob :=
  match l with
  | [] => (None, rows)
  | p :: l' =>
      match insert_error C p.1.1 (tobytes p.2) with
      | Some e => (Some e, rows)
      | None => write_rows (<[p.1.1 := tobytes p.2]> rows) l'
      end
  end.

(** What [fallback_text_search] returns is read off the FTS5 index alone. *)
Definition lexical_outcome (query : string) (limit : Z)
  : outcome (list SearchResult) :=
  match fts_match C query with
  | Raised e => Raised e
  | Returned hits =>
      Returned
        (map row_result
           (map (fun r : Z * string * string * Q => (r.1, r.2 * (-1 # 1))%Q)
              (sql_limit limit
                 (order_by (fun r : Z * string * string * Q => r.2)
                    (join_notes hits (notes_table C))))))
  end.

(** How a batch ends when it starts in [w]: the rows it commits, or the
    exception of the provider call, of the first insert that raises, or of
    the commit. *)
Definition batch_verdict (notes : list (Z * string)) (batch_size i : Z)
    (w : world) : outcome (gmap Z blob) :=
  match embeddings_create C (length (requests w)) embedding_model
          (batch_texts notes batch_size i) with
  | Raised e => Raised e
  | Returned vs =>
      let wr := write_rows (conn_rows w)
                  (zip (slice notes i (i + batch_size)) vs) in
      match wr.1 with
      | Some e => Raised e
      | None =>
          match commit_error C wr.2 with
          | Some e => Raised e
          | None => Returned wr.2
          end
      end
  end.

(** [INSERT OR REPLACE] of every pair, in order, on a store that accepts
    the writes. *)
Definition upsert_all (rows : gmap Z blob) (l : list ((Z * string) * vector))
  : gmap Z blob :=
  foldl (fun m p => <[p.1.1 := tobytes p.2]> m) rows l.

(** The inputs of the provider calls of a sync, one per batch. *)
Definition batch_calls (notes : list (Z * string)) (batch_size : Z)
  : list (list string) :=
  map (batch_texts notes batch_size)
      (range_loop (Z.to_nat (len notes)) 0 (len notes) batch_size).

(** The rows the vss statement of [semantic_search] yields from the
    neighbours [nn] when the connection sees [rows]. *)
Definition vector_rows (rows : gmap Z blob) (nn : list (Z * Q))
  : list (Z * string * string * Q) :=
  order_by (fun r : Z * string * string * Q => r.2)
    (join_notes
       (List.filter (fun hit : Z * Q =>
                       match rows !! hit.1 with
                       | Some _ => true | None => false end) nn)
       (notes_table C)).

(** The pairs a sync upserts on a store that accepts every write: those of
    the batches whose provider call returns, in order.  [n] is the number of
    provider calls made before the first batch. *)
Fixpoint sync_writes (notes : list (Z * string)) (batch_size : Z) (n : nat)
    (starts : list Z) : list ((Z * string) * vector) :=
  match starts with
  | [] => []
  | i :: starts' =>
      match embeddings_create C n embedding_model
              (batch_texts notes batch_size i) with
      | Returned vs => zip (slice notes i (i + batch_size)) vs
      | Raised _ => []
      end ++ sync_writes notes batch_size (S n) starts'
  end.

(** The store accepts every write. *)
Definition store_accepts : Prop :=
  (forall id b, insert_error C id b = None) /\
  (forall rows, commit_error C rows = None).

(** The vector-search capability is unavailable: the vss statement raises
    [sqlite3.OperationalError] whatever it is asked. *)
Definition vss_unavailable : Prop :=
  forall rows b k,
    exists e, vss_search C rows b k = Raised e /\ is_OperationalError e = true.

End Engine.

Arguments world : clear implicits.
Arguments collaborators : clear implicits.
Arguments M : clear implicits.
Arguments processed_message : simpl never.
Arguments batch_error_message : simpl never.

(** ** Scores and their order *)

Definition scores (rs : list SearchResult) : list Q := map distance rs.

Definition ascending (l : list Q) : Prop := StronglySorted Qle l.
Definition descending (l : list Q) : Prop := StronglySorted (fun x y => Qle y x) l.


(** ** Concrete stores used by the examples *)

Module Scenario.

(** Embeddings and blobs are lists of integers here; [tobytes] keeps them. *)
Definition tobytes (v : list Z) : list Z := v.

Definition w0 : world (list Z) := World ∅ ∅ [] [] 0.

Definition embed (t : string) : list Z := [Z.of_nat (String.length t)].

Definition twelve_notes : list (Z * string * string) :=
  map (fun i : nat => (Z.of_nat i, "title", "body")) (seq 1 12).

Definition fts_hits : list (Z * Q) := [(2, (-1 # 1)%Q); (1, (-2 # 1)%Q)].

Definition no_vss : exception :=
  Exc Sqlite3OperationalError "no such module: vss0".

Definition no_fts : exception :=
  Exc Sqlite3OperationalError "no such table: notes_fts".

Definition rate_limited : exception := Exc ProviderError "rate limit".

(** A healthy provider, no vss extension, a working FTS5 index. *)
Definition lexical_only : collaborators (list Z) (list Z) :=
  {| embeddings_create := fun _ _ ts => Returned (map embed ts);
     notes_table := twelve_notes;
     select_notes_error := None;
     vss_search := fun _ _ _ => Raised no_vss;
     fts_match := fun _ => Returned fts_hits;
     insert_error := fun _ _ => None;
     commit_error := fun _ => None |}.

(** As [lexical_only], with the provider down. *)
Definition provider_down : collaborators (list Z) (list Z) :=
  {| embeddings_create := fun _ _ _ => Raised rate_limited;
     notes_table := twelve_notes;
     select_notes_error := None;
     vss_search := fun _ _ _ => Raised no_vss;
     fts_match := fun _ => Returned fts_hits;
     insert_error := fun _ _ => None;
     commit_error := fun _ => None |}.

(** As [lexical_only], with the FTS5 table missing as well. *)
Definition both_down : collaborators (list Z) (list Z) :=
  {| embeddings_create := fun _ _ ts => Returned (map embed ts);
     notes_table := twelve_notes;
     select_notes_error := None;
     vss_search := fun _ _ _ => Raised no_vss;
     fts_match := fun _ => Raised no_fts;
     insert_error := fun _ _ => None;
     commit_error := fun _ => None |}.

(** A store that accepts every write, with a provider whose second call
    raises. *)
Definition second_call_fails : collaborators (list Z) (list Z) :=
  {| embeddings_create := fun n _ ts =>
       match n with
       | 1%nat => Raised rate_limited
       | _ => Returned (map embed ts)
       end;
     notes_table := twelve_notes;
     select_notes_error := None;
     vss_search := fun _ _ _ => Returned [];
     fts_match := fun _ => Returned fts_hits;
     insert_error := fun _ _ => None;
     commit_error := fun _ => None |}.

(** A provider that answers every call with a single vector. *)
Definition short_answers : collaborators (list Z) (list Z) :=
  {| embeddings_create := fun _ _ ts => Returned (map embed (take 1 ts));
     notes_table := twelve_notes;
     select_notes_error := None;
     vss_search := fun _ _ _ => Returned [];
     fts_match := fun _ => Returned fts_hits;
     insert_error := fun _ _ => None;
     commit_error := fun _ => None |}.

Definition three_notes : list (Z * string) :=
  [(1, "alpha"); (2, "beta"); (3, "gamma")].

(** What [update_all_embeddings] reads from [twelve_notes]. *)
Definition twelve_texts : list (Z * string) :=
  map (fun n : Z * string * string => (n.1.1, n.1.2 +:+ " " +:+ n.2))
      twelve_notes.

Definition quantum : string := "quantum entanglement".

(** A store that holds the embeddings of notes 1 and 2. *)
Definition w_stored : world (list Z) :=
  World {[1 := [1]; 2 := [2]]} {[1 := [1]; 2 := [2]]} [] [] 0.

Definition neighbours : list (Z * Q) :=
  [(2, (1 # 2)%Q); (1, (1 # 4)%Q); (99, (1 # 8)%Q)].

(** Everything works: provider, vss extension and FTS5 index. *)
Definition healthy : collaborators (list Z) (list Z) :=
  {| embeddings_create := fun _ _ ts => Returned (map embed ts);
     notes_table := twelve_notes;
     select_notes_error := None;
     vss_search := fun _ _ _ => Returned neighbours;
     fts_match := fun _ => Returned fts_hits;
     insert_error := fun _ _ => None;
     commit_error := fun _ => None |}.

(** A provider that answers with an empty [data] list. *)
Definition empty_answer : collaborators (list Z) (list Z) :=
  {| embeddings_create := fun _ _ _ => Returned [];
     notes_table := twelve_notes;
     select_notes_error := None;
     vss_search := fun _ _ _ => Returned neighbours;
     fts_match := fun _ => Returned fts_hits;
     insert_error := fun _ _ => None;
     commit_error := fun _ => None |}.

Definition corrupt : exception :=
  Exc Sqlite3Error "database disk image is malformed".

(** A vss statement that fails with an error other than
    [OperationalError]. *)
Definition vss_corrupt : collaborators (list Z) (list Z) :=
  {| embeddings_create := fun _ _ ts => Returned (map embed ts);
     notes_table := twelve_notes;
     select_notes_error := None;
     vss_search := fun _ _ _ => Raised corrupt;
     fts_match := fun _ => Returned fts_hits;
     insert_error := fun _ _ => None;
     commit_error := fun _ => None |}.

(** An empty [notes] table. *)
Definition no_notes : collaborators (list Z) (list Z) :=
  {| embeddings_create := fun _ _ ts => Returned (map embed ts);
     notes_table := [];
     select_notes_error := None;
     vss_search := fun _ _ _ => Returned [];
     fts_match := fun _ => Returned [];
     insert_error := fun _ _ => None;
     commit_error := fun _ => None |}.

Definition no_notes_table : exception :=
  Exc Sqlite3OperationalError "no such table: notes".

(** A [notes] table that cannot be read. *)
Definition notes_unreadable : collaborators (list Z) (list Z) :=
  {| embeddings_create := fun _ _ ts => Returned (map embed ts);
     notes_table := [];
     select_notes_error := Some no_notes_table;
     vss_search := fun _ _ _ => Returned [];
     fts_match := fun _ => Returned [];
     insert_error := fun _ _ => None;
     commit_error := fun _ => None |}.

(** A store whose [note_embeddings] table rejects every insert. *)
Definition read_only_store : collaborators (list Z) (list Z) :=
  {| embeddings_create := fun _ _ ts => Returned (map embed ts);
     notes_table := twelve_notes;
     select_notes_error := None;
     vss_search := fun _ _ _ => Returned [];
     fts_match := fun _ => Returned fts_hits;
     insert_error := fun _ _ =>
       Some (Exc Sqlite3OperationalError "no such table: note_embeddings");
     commit_error := fun _ => None |}.

Definition table_locked : exception :=
  Exc Sqlite3OperationalError "database is locked".

(** A store that accepts the insert of note 1 and rejects that of note 2. *)
Definition second_insert_fails : collaborators (list Z) (list Z) :=
  {| embeddings_create := fun _ _ ts => Returned (map embed ts);
     notes_table := twelve_notes;
     select_notes_error := None;
     vss_search := fun _ _ _ => Returned [];
     fts_match := fun _ => Returned fts_hits;
     insert_error := fun id _ => if id =? 2 then Some table_locked else None;
     commit_error := fun _ => None |}.

(** As [short_answers], on a store that rejects every insert. *)
Definition short_rejecting : collaborators (list Z) (list Z) :=
  {| embeddings_create := fun _ _ ts => Returned (map embed (take 1 ts));
     notes_table := twelve_notes;
     select_notes_error := None;
     vss_search := fun _ _ _ => Returned [];
     fts_match := fun _ => Returned fts_hits;
     insert_error := fun _ _ =>
       Some (Exc Sqlite3OperationalError "no such table: note_embeddings");
     commit_error := fun _ => None |}.

(** A provider that answers every call with two vectors at most. *)
Definition two_answers : collaborators (list Z) (list Z) :=
  {| embeddings_create := fun _ _ ts => Returned (map embed (take 2 ts));
     notes_table := twelve_notes;
     select_notes_error := None;
     vss_search := fun _ _ _ => Returned [];
     fts_match := fun _ => Returned fts_hits;
     insert_error := fun _ _ => None;
     commit_error := fun _ => None |}.

(** Three pairs, the first two with the same note id. *)
Definition twin_notes : list (Z * string) :=
  [(1, "alpha"); (1, "beta"); (3, "gamma")].

End Scenario.

(** ** Ordering lemmas *)

Section OrderBy.

Context {A : Type} (key : A -> Q).

Let by_key (a b : A) : Prop := (key a <= key b)%Q.

Lemma insert_by_Forall (P : A -> Prop) x l :
  P x -> Forall P l -> Forall P (insert_by key x l).
Proof.
  intros Hx Hl. induction Hl as [|y l Hy Hl IH]; simpl.
  - by constructor.
  - destruct (Qle_bool (key x) (key y)); repeat constructor; auto.
Qed.

Lemma insert_by_sorted x l :
  StronglySorted by_key l -> StronglySorted by_key (insert_by key x l).
Proof.
  induction 1 as [|y l Hl IH Hy]; simpl.
  - repeat constructor.
  - destruct (Qle_bool (key x) (key y)) eqn:Hle.
    + apply Qle_bool_iff in Hle.
      constructor; [by constructor|].
      constructor; [exact Hle|].
      eapply Forall_impl; [exact Hy|].
      intros z Hz. unfold by_key in *. by eapply Qle_trans.
    + assert (Hyx : (key y <= key x)%Q).
      { apply Qlt_le_weak, Qnot_le_lt. intros Hc.
        apply Qle_bool_iff in Hc. congruence. }
      constructor; [exact IH|].
      by apply insert_by_Forall.
Qed.

Lemma order_by_sorted l : StronglySorted by_key (order_by key l).
Proof.
  induction l as [|x l IH]; simpl; [constructor|].
  by apply insert_by_sorted.
Qed.

Lemma sql_limit_sorted (R : A -> A -> Prop) k l :
  StronglySorted R l -> StronglySorted R (sql_limit k l).
Proof.
  unfold sql_limit. destruct (k <? 0); [done|].
  generalize (Z.to_nat k) as n. intros n Hl. revert n.
  induction Hl as [|x l Hl IH Hx]; intros [|n]; simpl; try constructor; auto.
  by apply Forall_take.
Qed.

End OrderBy.

Lemma StronglySorted_map {A B : Type} (R : A -> A -> Prop) (S : B -> B -> Prop)
    (f : A -> B) (l : list A) :
  (forall x y, R x y -> S (f x) (f y)) ->
  StronglySorted R l -> StronglySorted S (map f l).
Proof.
  intros Hf. induction 1 as [|x l Hl IH Hx]; simpl; constructor.
  - exact IH.
  - clear Hl IH. induction Hx; simpl; constructor; auto.
Qed.

(** ** Retrieval *)

Section Retrieval.

Context {vector blob : Type} (tobytes : vector -> blob).
Variable C : collaborators vector blob.

Lemma fallback_text_search_outcome query limit w :
  (fallback_text_search C query limit w).1 = lexical_outcome C query limit.
Proof.
  unfold fallback_text_search, with_connection, bind, execute_fts,
    lexical_outcome, ret.
  simpl. by destruct (fts_match C query).
Qed.

Lemma not_operational_of_provider e :
  is_ProviderError e = true -> is_OperationalError e = false.
Proof.
  unfold is_ProviderError, is_OperationalError.
  destruct e as [[] m]; simpl; intros H; done.
Qed.

Lemma get_embedding_raises model text w e :
  embeddings_create C (length (requests w)) model [text] = Raised e ->
  (_get_embedding_cached C model text w).1 = Raised e /\
  log (_get_embedding_cached C model text w).2
    = log w ++ [(ERROR, "Error generating embedding: " +:+ exc_msg e)].
Proof.
  intros He.
  unfold _get_embedding_cached, try_except, bind, client_embeddings_create.
  rewrite He. by simpl.
Qed.

Lemma get_embedding_returns model text w v vs :
  embeddings_create C (length (requests w)) model [text] = Returned (v :: vs) ->
  (_get_embedding_cached C model text w).1 = Returned v /\
  note_embeddings (_get_embedding_cached C model text w).2 = note_embeddings w.
Proof.
  intros He.
  unfold _get_embedding_cached, try_except, bind, client_embeddings_create.
  rewrite He. by simpl.
Qed.

(** The handler of [semantic_search]: once the attempt has raised an
    [OperationalError], the call behaves as the fallback. *)
Lemma semantic_search_handled query limit w e :
  (semantic_attempt tobytes C query limit w).1 = Raised e ->
  is_OperationalError e = true ->
  (semantic_search tobytes C query limit w).1 = lexical_outcome C query limit.
Proof.
  intros Hatt Hop. unfold semantic_search, try_except.
  destruct (semantic_attempt tobytes C query limit w) as [[rs|e'] w'];
    simpl in Hatt; [discriminate|].
  injection Hatt as ->. rewrite Hop. unfold bind, logger.
  apply fallback_text_search_outcome.
Qed.

Lemma semantic_attempt_vss_raises query limit w v vs e :
  embeddings_create C (length (requests w)) embedding_model [query]
    = Returned (v :: vs) ->
  vss_search C (note_embeddings w) (tobytes v) limit = Raised e ->
  (semantic_attempt tobytes C query limit w).1 = Raised e.
Proof.
  intros Hemb Hvss. unfold semantic_attempt, bind.
  destruct (get_embedding_returns _ _ _ _ _ Hemb) as [Hv Hrows].
  destruct (_get_embedding_cached C embedding_model query w) as [[v'|e'] w'];
    simpl in Hv, Hrows; [|discriminate].
  injection Hv as ->.
  unfold with_connection, bind, execute_vss, connect. simpl.
  rewrite Hrows, Hvss. done.
Qed.

(** C1 (as amended): when the provider fails with a [ProviderError]
    while the query embedding is computed, [semantic_search] logs the error
    and raises that same exception to its caller; nothing else is logged,
    so the lexical fallback is not run. *)
Theorem semantic_search_provider_error query limit w e :
  embeddings_create C (length (requests w)) embedding_model [query] = Raised e ->
  is_ProviderError e = true ->
  (semantic_search tobytes C query limit w).1 = Raised e /\
  log (semantic_search tobytes C query limit w).2
    = log w ++ [(ERROR, "Error generating embedding: " +:+ exc_msg e)].
Proof.
  intros He Hp. apply not_operational_of_provider in Hp.
  destruct (get_embedding_raises _ _ _ _ He) as [Hout Hlog].
  unfold semantic_search, try_except, semantic_attempt, bind.
  destruct (_get_embedding_cached C embedding_model query w) as [[v|e'] w'];
    simpl in Hout, Hlog; [discriminate|].
  injection Hout as ->. rewrite Hp. by simpl.
Qed.

(** C3 (as amended): when the vector-search capability is unavailable and
    the provider has returned an embedding for the query, [semantic_search]
    returns exactly what [fallback_text_search] returns for the same query
    and limit: the same results in the same order, or the same exception. *)
Theorem semantic_search_vss_unavailable query limit w v vs :
  vss_unavailable C ->
  embeddings_create C (length (requests w)) embedding_model [query]
    = Returned (v :: vs) ->
  (semantic_search tobytes C query limit w).1
    = (fallback_text_search C query limit w).1.
Proof.
  intros Hun Hemb.
  destruct (Hun (note_embeddings w) (tobytes v) limit) as (e & Hvss & Hop).
  rewrite fallback_text_search_outcome.
  eapply semantic_search_handled; [|exact Hop].
  by eapply semantic_attempt_vss_raises.
Qed.

(** C4 (as amended): when the semantic attempt has failed with a
    [sqlite3.OperationalError] and the FTS5 statement of the fallback raises
    too, [semantic_search] raises the fallback's own exception, unchanged;
    no further fallback is tried. *)
Theorem fallback_failure_propagates query limit w e1 e2 :
  (semantic_attempt tobytes C query limit w).1 = Raised e1 ->
  is_OperationalError e1 = true ->
  fts_match C query = Raised e2 ->
  (semantic_search tobytes C query limit w).1 = Raised e2.
Proof.
  intros Hatt Hop Hfts.
  rewrite (semantic_search_handled _ _ _ _ Hatt Hop).
  unfold lexical_outcome. by rewrite Hfts.
Qed.

(** The scores of the fallback path never increase along the returned list:
    the rows come in ascending [rank] and each score is [rank * -1]. *)
Lemma fallback_text_search_descending query limit w rs :
  (fallback_text_search C query limit w).1 = Returned rs ->
  descending (scores rs).
Proof.
  rewrite fallback_text_search_outcome. unfold lexical_outcome.
  destruct (fts_match C query) as [hits|e]; [|discriminate].
  intros [= <-]. unfold scores, descending.
  rewrite !map_map. simpl.
  eapply StronglySorted_map; [|apply sql_limit_sorted, order_by_sorted].
  simpl. intros x y Hxy.
  assert (Hneg : forall q : Q, (q * (-1 # 1) == - q)%Q) by (intros q; ring).
  rewrite !Hneg. by apply Qopp_le_compat.
Qed.

End Retrieval.

(** ** Arithmetic of [range] and slices *)

Lemma range_loop_length fuel i stop step :
  0 < step -> (Z.to_nat (stop - i) <= fuel)%nat ->
  length (range_loop fuel i stop step)
    = Z.to_nat ((stop - i + step - 1) / step).
Proof.
  intros Hstep. revert i.
  induction fuel as [|fuel IH]; intros i Hfuel; simpl.
  - assert (Hle : stop - i <= 0) by lia.
    assert ((stop - i + step - 1) / step <= 0); [|lia].
    apply Z.lt_succ_r, Z.div_lt_upper_bound; lia.
  - destruct (Z.ltb_spec i stop) as [Hlt|Hge].
    + simpl. rewrite IH by lia.
      replace (stop - i + step - 1) with ((stop - (i + step) + step - 1) + 1 * step)
        by lia.
      rewrite Z.div_add by lia.
      assert (0 <= (stop - (i + step) + step - 1) / step); [|lia].
      apply Z.div_le_lower_bound; lia.
    + simpl.
      assert ((stop - i + step - 1) / step <= 0); [|lia].
      apply Z.lt_succ_r, Z.div_lt_upper_bound; lia.
Qed.

Lemma range_loop_lookup fuel i stop step k j :
  range_loop fuel i stop step !! k = Some j ->
  j = i + Z.of_nat k * step /\ j < stop.
Proof.
  revert i k. induction fuel as [|fuel IH]; intros i k; simpl; [done|].
  destruct (Z.ltb_spec i stop) as [Hlt|Hge]; [|done].
  destruct k as [|k]; simpl.
  - intros [= <-]. lia.
  - intros Hk. apply IH in Hk. lia.
Qed.

Lemma slice_length {A : Type} (l : list A) i step :
  0 <= i -> 0 < step ->
  length (slice l i (i + step))
    = Z.to_nat (Z.min step (Z.max 0 (len l - i))).
Proof.
  intros Hi Hstep. unfold slice, len.
  rewrite length_take, length_drop. lia.
Qed.

Lemma range_loop_concat {A : Type} (l : list A) fuel i step :
  0 <= i -> 0 < step -> (Z.to_nat (len l - i) <= fuel)%nat ->
  concat (map (fun j => slice l j (j + step)) (range_loop fuel i (len l) step))
    = drop (Z.to_nat i) l.
Proof.
  intros Hi Hstep. revert i Hi.
  induction fuel as [|fuel IH]; intros i Hi Hfuel; simpl.
  - rewrite drop_ge; [done|]. unfold len in *. lia.
  - destruct (Z.ltb_spec i (len l)) as [Hlt|Hge]; simpl.
    + rewrite IH by (unfold len in *; lia).
      unfold slice. replace (i + step - i) with step by lia.
      rewrite <- (take_drop (Z.to_nat step) (drop (Z.to_nat i) l)) at 2.
      rewrite drop_drop. do 3 f_equal. lia.
    + rewrite drop_ge; [done|]. unfold len in *. lia.
Qed.

(** ** Embedding sync *)

Section Sync.

Context {vector blob : Type} (tobytes : vector -> blob).
Variable C : collaborators vector blob.

Lemma world_eta (w : world blob) :
  World (note_embeddings w) (conn_rows w) (log w) (requests w) (sleeps w) = w.
Proof. by destruct w. Qed.

Lemma for_each_insert l w :
  for_each l (fun p : (Z * string) * vector =>
                execute_insert C p.1.1 (tobytes p.2)) w
  = (match (write_rows tobytes C (conn_rows w) l).1 with
     | Some e => Raised e
     | None => Returned tt
     end,
     World (note_embeddings w) (write_rows tobytes C (conn_rows w) l).2
           (log w) (requests w) (sleeps w)).
Proof.
  revert w. induction l as [|p l IH]; intros w; simpl.
  - unfold ret. by rewrite world_eta.
  - unfold bind, execute_insert.
    destruct (insert_error C p.1.1 (tobytes p.2)) as [e|]; simpl.
    + by rewrite world_eta.
    + by rewrite IH.
Qed.

Lemma write_rows_accepted rows l :
  (forall p, p ∈ l -> insert_error C p.1.1 (tobytes p.2) = None) ->
  write_rows tobytes C rows l = (None, upsert_all tobytes rows l).
Proof.
  revert rows. induction l as [|p l IH]; intros rows Hacc; simpl; [done|].
  rewrite Hacc by left. apply IH. intros q Hq. apply Hacc. by right.
Qed.

Lemma batch_attempt_run notes b i w :
  batch_attempt tobytes C notes b i w
  = match embeddings_create C (length (requests w)) embedding_model
            (batch_texts notes b i) with
    | Raised e =>
        (Raised e, World (note_embeddings w) (conn_rows w) (log w)
                         (requests w ++ [batch_texts notes b i]) (sleeps w))
    | Returned vs =>
        let wr := write_rows tobytes C (conn_rows w)
                    (zip (slice notes i (i + b)) vs) in
        match wr.1 with
        | Some e =>
            (Raised e, World (note_embeddings w) wr.2 (log w)
                             (requests w ++ [batch_texts notes b i]) (sleeps w))
        | None =>
            match commit_error C wr.2 with
            | Some e =>
                (Raised e, World (note_embeddings w) wr.2 (log w)
                                 (requests w ++ [batch_texts notes b i])
                                 (sleeps w))
            | None =>
                (Returned tt,
                 World wr.2 wr.2
                       (log w ++ [(INFO, processed_message notes b i)])
                       (requests w ++ [batch_texts notes b i]) (sleeps w))
            end
        end
    end.
Proof.
  unfold batch_attempt, bind, client_embeddings_create, batch_texts.
  destruct (embeddings_create C (length (requests w)) embedding_model
              (map snd (slice notes i (i + b)))) as [vs|e]; [|done].
  rewrite for_each_insert. simpl.
  destruct (write_rows tobytes C (conn_rows w) (zip (slice notes i (i + b)) vs))
    as [[e|] rows]; simpl; [done|].
  unfold conn_commit. simpl.
  by destruct (commit_error C rows).
Qed.

Lemma batch_attempt_outcome notes b i w :
  (batch_attempt tobytes C notes b i w).1
  = match batch_verdict tobytes C notes b i w with
    | Returned _ => Returned tt
    | Raised e => Raised e
    end.
Proof.
  rewrite batch_attempt_run. unfold batch_verdict.
  destruct (embeddings_create C (length (requests w)) embedding_model
              (batch_texts notes b i)) as [vs|e]; [|done].
  simpl.
  destruct (write_rows tobytes C (conn_rows w) (zip (slice notes i (i + b)) vs))
    as [[e|] rows]; simpl; [done|].
  by destruct (commit_error C rows).
Qed.

(** One turn of the loop, in full. *)
Lemma process_batch_run notes b i w :
  process_batch tobytes C notes b i w
  = (Returned tt,
     match batch_verdict tobytes C notes b i w with
     | Returned rows =>
         World rows rows (log w ++ [(INFO, processed_message notes b i)])
               (requests w ++ [batch_texts notes b i]) (S (sleeps w))
     | Raised e =>
         World (note_embeddings w) (note_embeddings w)
               (log w ++ [(ERROR, batch_error_message e)])
               (requests w ++ [batch_texts notes b i]) (S (sleeps w))
     end).
Proof.
  unfold process_batch, bind, try_except. rewrite batch_attempt_run.
  unfold batch_verdict.
  destruct (embeddings_create C (length (requests w)) embedding_model
              (batch_texts notes b i)) as [vs|e]; [|done].
  simpl.
  destruct (write_rows tobytes C (conn_rows w) (zip (slice notes i (i + b)) vs))
    as [[e|] rows]; simpl; [done|].
  by destruct (commit_error C rows).
Qed.

Lemma process_batch_requests notes b i w :
  requests (process_batch tobytes C notes b i w).2
    = requests w ++ [batch_texts notes b i].
Proof.
  rewrite process_batch_run. simpl.
  by destruct (batch_verdict tobytes C notes b i w).
Qed.

(** The loop: it never raises, and it calls the provider once for every
    start index, in order. *)
Lemma for_each_process_batch notes b starts w :
  (for_each starts (process_batch tobytes C notes b) w).1 = Returned tt /\
  requests (for_each starts (process_batch tobytes C notes b) w).2
    = requests w ++ map (batch_texts notes b) starts /\
  sleeps (for_each starts (process_batch tobytes C notes b) w).2
    = (sleeps w + length starts)%nat /\
  length (log (for_each starts (process_batch tobytes C notes b) w).2)
    = (length (log w) + length starts)%nat.
Proof.
  revert w. induction starts as [|i starts IH]; intros w; simpl.
  - rewrite app_nil_r. repeat split; lia.
  - unfold bind at 1 2 3 4.
    pose proof (process_batch_run notes b i w) as Hrun.
    destruct (process_batch tobytes C notes b i w) as [[[]|e] w1];
      [|discriminate].
    destruct (IH w1) as (H1 & H2 & H3 & H4).
    rewrite H1, H2, H3, H4.
    injection Hrun as ->.
    destruct (batch_verdict tobytes C notes b i w); simpl;
      rewrite <- ?app_assoc, ?length_app; simpl; repeat split; lia.
Qed.

Lemma add_embeddings_batch_run notes b w starts :
  py_range (len notes) b = Returned starts ->
  add_embeddings_batch tobytes C notes b w
  = (Returned tt,
     (connect (for_each starts (process_batch tobytes C notes b)
                 (connect w).2).2).2).
Proof.
  intros Hrange. unfold add_embeddings_batch, with_connection.
  rewrite Hrange.
  destruct (for_each_process_batch notes b starts (connect w).2) as [Hout _].
  destruct (for_each starts (process_batch tobytes C notes b) (connect w).2)
    as [r w']; simpl in Hout. by subst r.
Qed.

Lemma py_range_positive stop step :
  0 < step ->
  py_range stop step = Returned (range_loop (Z.to_nat stop) 0 stop step).
Proof.
  intros Hstep. unfold py_range.
  destruct (Z.eqb_spec step 0); [lia|].
  destruct (Z.ltb_spec step 0); [lia|done].
Qed.

Lemma add_embeddings_batch_requests notes b w :
  0 < b ->
  (add_embeddings_batch tobytes C notes b w).1 = Returned tt /\
  requests (add_embeddings_batch tobytes C notes b w).2
    = requests w ++ batch_calls notes b.
Proof.
  intros Hb.
  rewrite (add_embeddings_batch_run _ _ _ _ (py_range_positive _ _ Hb)).
  split; [done|].
  destruct (for_each_process_batch notes b
              (range_loop (Z.to_nat (len notes)) 0 (len notes) b)
              (connect w).2) as (_ & Hreq & _).
  unfold batch_calls. cbn [connect snd requests] in *. exact Hreq.
Qed.

Lemma upsert_all_lookup_other rows (l : list ((Z * string) * vector)) id :
  id ∉ map (fun p : (Z * string) * vector => p.1.1) l ->
  upsert_all tobytes rows l !! id = rows !! id.
Proof.
  revert rows. induction l as [|p l IH]; intros rows Hid; simpl; [done|].
  simpl in Hid. apply not_elem_of_cons in Hid as [Hne Hid].
  unfold upsert_all in *. simpl. rewrite IH by done.
  by rewrite lookup_insert_ne.
Qed.

Lemma zip_ids_elem_of (batch : list (Z * string)) (vs : list vector) id :
  id ∈ map (fun p : (Z * string) * vector => p.1.1) (zip batch vs) ->
  id ∈ map fst batch.
Proof.
  revert vs. induction batch as [|n batch IH]; intros [|v vs]; simpl;
    try (by intros ?%elem_of_nil).
  intros [->|Hin]%elem_of_cons; [left|right; by eapply IH].
Qed.

Lemma upsert_all_zip_lookup (batch : list (Z * string)) (vs : list vector) rows :
  NoDup (map fst batch) ->
  (forall k id v,
      map fst batch !! k = Some id -> vs !! k = Some v ->
      upsert_all tobytes rows (zip batch vs) !! id = Some (tobytes v)) /\
  (forall k id,
      (length vs <= k)%nat -> map fst batch !! k = Some id ->
      upsert_all tobytes rows (zip batch vs) !! id = rows !! id).
Proof.
  revert vs rows.
  induction batch as [|[id0 t0] batch IH]; intros vs rows Hnd; simpl in *.
  - split; intros; done.
  - apply NoDup_cons in Hnd as [Hfresh Hnd].
    destruct vs as [|v0 vs]; simpl.
    + split; [intros k id v _ Hv; by destruct k|done].
    + destruct (IH vs (<[id0 := tobytes v0]> rows) Hnd) as [Hpos Hskip].
      split.
      * intros [|k] id v; simpl.
        -- intros [= <-] [= <-].
           change (upsert_all tobytes (<[id0 := tobytes v0]> rows)
                     (zip batch vs) !! id0 = Some (tobytes v0)).
           rewrite upsert_all_lookup_other; [by rewrite lookup_insert_eq|].
           intros Hin. by apply Hfresh, (zip_ids_elem_of _ vs).
        -- apply Hpos.
      * intros [|k] id Hk; simpl; [lia|]. intros Hid.
        change (upsert_all tobytes (<[id0 := tobytes v0]> rows)
                  (zip batch vs) !! id = rows !! id).
        rewrite (Hskip k id) by (done || lia).
        rewrite lookup_insert_ne; [done|].
        intros <-. apply Hfresh. by eapply list_elem_of_lookup_2.
Qed.


Lemma update_all_embeddings_run w :
  select_notes_error C = None ->
  update_all_embeddings tobytes C w
  = let notes := map (fun n : Z * string * string =>
                        (n.1.1, n.1.2 +:+ " " +:+ n.2)) (notes_table C) in
    let r := add_embeddings_batch tobytes C notes 10
               (World (note_embeddings w) (note_embeddings w)
                  (log w ++ [(INFO, "Updating embeddings for "
                                      +:+ pretty (len notes) +:+ " notes")])
                  (requests w) (sleeps w)) in
    (r.1, (connect r.2).2).
Proof.
  intros Hsel. unfold update_all_embeddings, with_connection, bind, select_notes.
  rewrite Hsel. cbn [fst snd connect note_embeddings conn_rows log requests sleeps logger].
  rewrite map_map. cbn [fst snd].
  set (notes := map _ (notes_table C)).
  by destruct (add_embeddings_batch tobytes C notes 10 _) as [r w'].
Qed.






(** C7: a batch is all or nothing.  When the provider call, an insert or
    the commit of a batch raises, the committed [note_embeddings] rows are
    what they were before the batch, and after the rollback the connection
    sees those rows again: none of the batch's inserts remains. *)
Theorem failed_batch_leaves_store notes b i w e :
  (batch_attempt tobytes C notes b i w).1 = Raised e ->
  note_embeddings (batch_attempt tobytes C notes b i w).2 = note_embeddings w /\
  note_embeddings (process_batch tobytes C notes b i w).2 = note_embeddings w /\
  conn_rows (process_batch tobytes C notes b i w).2 = note_embeddings w.
Proof.
  intros Hfail. split.
  - rewrite batch_attempt_run in *.
    destruct (embeddings_create C (length (requests w)) embedding_model
                (batch_texts notes b i)) as [vs|e1]; [|done].
    cbv zeta in *.
    destruct (write_rows tobytes C (conn_rows w)
                (zip (slice notes i (i + b)) vs)) as [[e1|] rows];
      cbn [fst snd] in *; [done|].
    by destruct (commit_error C rows).
  - rewrite batch_attempt_outcome in Hfail. rewrite process_batch_run.
    by destruct (batch_verdict tobytes C notes b i w).
Qed.

(** C8: for a positive batch size [b], a sync of [n] notes calls the
    provider once per batch, [ceil(n/b)] times in all; the calls carry the
    notes' texts in order, each call between 1 and [b] texts and every call
    but the last exactly [b].  With 12 notes and batch size 10 there are
    two calls, of 10 texts and of 2. *)
Theorem one_provider_call_per_batch notes b w :
  0 < b ->
  requests (add_embeddings_batch tobytes C notes b w).2
    = requests w ++ batch_calls notes b /\
  length (batch_calls notes b) = Z.to_nat ((len notes + b - 1) / b) /\
  concat (batch_calls notes b) = map snd notes /\
  (forall k texts,
      batch_calls notes b !! k = Some texts ->
      (0 < length texts <= Z.to_nat b)%nat /\
      ((S k < length (batch_calls notes b))%nat ->
       length texts = Z.to_nat b)) /\
  (len notes = 12 -> b = 10 ->
   map length (batch_calls notes b) = [10; 2]%nat).
Proof.
  intros Hb. split; [by apply add_embeddings_batch_requests|].
  unfold batch_calls. split; [|split; [|split]].
  - rewrite length_map, range_loop_length by lia. f_equal. f_equal. lia.
  - unfold batch_texts.
    rewrite <- (map_map (fun j => slice notes j (j + b)) (map snd)).
    rewrite <- concat_map, range_loop_concat by lia. done.
  - intros k texts Hk.
    rewrite list_lookup_fmap in Hk.
    destruct (range_loop (Z.to_nat (len notes)) 0 (len notes) b !! k)
      as [j|] eqn:Hj; [|done].
    injection Hk as <-.
    pose proof (range_loop_lookup _ _ _ _ _ _ Hj) as [Hjk Hjn].
    unfold batch_texts. rewrite length_map, slice_length by lia.
    split; [lia|]. rewrite length_map. intros Hnext.
    destruct (lookup_lt_is_Some_2
                (range_loop (Z.to_nat (len notes)) 0 (len notes) b) (S k) Hnext)
      as [j' Hj'].
    apply range_loop_lookup in Hj'. lia.
  - intros Hlen ->. rewrite Hlen.
    change (range_loop (Z.to_nat 12) 0 12 10) with [0; 10].
    cbn [map]. unfold batch_texts.
    rewrite !length_map, !slice_length by lia. by rewrite Hlen.
Qed.

(** C9: the upsert ([INSERT OR REPLACE INTO note_embeddings]) is
    idempotent: executing it twice with the same id and embedding gives
    the same outcome and leaves the same state as executing it once. *)
Theorem upsert_idempotent id (b : blob) w :
  bind (execute_insert C id b) (fun _ => execute_insert C id b) w
  = execute_insert C id b w.
Proof.
  unfold bind, execute_insert.
  destruct (insert_error C id b) as [e|] eqn:Herr; [done|].
  cbn [note_embeddings conn_rows log requests sleeps].
  by rewrite insert_insert_eq.
Qed.

(** C10 (as amended): when the provider answers a batch with fewer
    embeddings than the batch has notes, every insert of the batch and its
    commit succeed, and the note ids of the batch are distinct, the turn
    returns, logs the batch as processed and records no error; the [k]-th
    note id is stored with the [k]-th returned embedding, and the notes
    past the end of the response keep the row, or the absence of row, they
    had. *)
Theorem short_response_skips_rest notes b i w vs :
  let batch := slice notes i (i + b) in
  embeddings_create C (length (requests w)) embedding_model
    (batch_texts notes b i) = Returned vs ->
  (length vs < length batch)%nat ->
  (forall p, p ∈ zip batch vs -> insert_error C p.1.1 (tobytes p.2) = None) ->
  commit_error C (upsert_all tobytes (conn_rows w) (zip batch vs)) = None ->
  NoDup (map fst batch) ->
  (process_batch tobytes C notes b i w).1 = Returned tt /\
  log (process_batch tobytes C notes b i w).2
    = log w ++ [(INFO, processed_message notes b i)] /\
  (forall k id v,
      map fst batch !! k = Some id -> vs !! k = Some v ->
      note_embeddings (process_batch tobytes C notes b i w).2 !! id
        = Some (tobytes v)) /\
  (forall k id,
      (length vs <= k)%nat -> map fst batch !! k = Some id ->
      note_embeddings (process_batch tobytes C notes b i w).2 !! id
        = conn_rows w !! id).
Proof.
  intros batch Hresp Hshort Hins Hcommit Hnd.
  rewrite process_batch_run.
  assert (Hv : batch_verdict tobytes C notes b i w
               = Returned (upsert_all tobytes (conn_rows w) (zip batch vs))).
  { unfold batch_verdict. rewrite Hresp. fold batch.
    rewrite write_rows_accepted by done. cbn [fst snd]. by rewrite Hcommit. }
  rewrite Hv. cbn [fst snd note_embeddings log].
  destruct (upsert_all_zip_lookup batch vs (conn_rows w) Hnd) as [Hpos Hskip].
  repeat split; [exact Hpos|exact Hskip].
Qed.

End Sync.

(** ** More on retrieval *)

Lemma order_by_Forall {A : Type} (key : A -> Q) (P : A -> Prop) l :
  Forall P l -> Forall P (order_by key l).
Proof.
  induction 1 as [|x l Hx Hl IH]; simpl; [constructor|].
  by apply insert_by_Forall.
Qed.

Lemma insert_by_perm {A : Type} (key : A -> Q) x l :
  insert_by key x l ≡ₚ x :: l.
Proof.
  induction l as [|y l IH]; simpl; [done|].
  destruct (Qle_bool (key x) (key y)); [done|].
  rewrite IH. apply Permutation_swap.
Qed.

Lemma order_by_perm {A : Type} (key : A -> Q) l : order_by key l ≡ₚ l.
Proof.
  induction l as [|x l IH]; simpl; [done|].
  by rewrite insert_by_perm, IH.
Qed.

Lemma join_notes_elem hits notes r :
  r ∈ join_notes hits notes ->
  (r.1.1.1, r.2) ∈ hits /\ (r.1.1.1, r.1.1.2, r.1.2) ∈ notes.
Proof.
  unfold join_notes. rewrite !list_elem_of_In, in_flat_map.
  intros ([id d] & Hhit & Hr). apply in_map_iff in Hr as ([[nid t] c] & <- & Hn).
  apply filter_In in Hn as [Hn Heq]. simpl in *.
  apply Z.eqb_eq in Heq. by subst.
Qed.

Lemma filter_note_unique (notes : list (Z * string * string)) id :
  NoDup (map (fun n : Z * string * string => n.1.1) notes) ->
  (length (List.filter (fun n : Z * string * string => (n.1.1 =? id)%Z) notes)
   <= 1)%nat.
Proof.
  induction notes as [|n notes IH]; simpl; [lia|].
  intros [Hfresh Hnd]%NoDup_cons.
  destruct (Z.eqb_spec n.1.1 id) as [Heq|Hne]; [|by apply IH].
  simpl. assert (Hnone : List.filter
                   (fun n : Z * string * string => n.1.1 =? id) notes = []).
  { clear IH Hnd. induction notes as [|m notes IH]; simpl; [done|].
    simpl in Hfresh. apply not_elem_of_cons in Hfresh as [Hm Hfresh].
    destruct (Z.eqb_spec m.1.1 id); [congruence|by apply IH]. }
  rewrite Hnone. simpl. lia.
Qed.

Lemma join_notes_cons hit hits notes :
  join_notes (hit :: hits) notes
  = map (fun n : Z * string * string => (n.1.1, n.1.2, n.2, hit.2))
        (List.filter (fun n : Z * string * string => n.1.1 =? hit.1) notes)
    ++ join_notes hits notes.
Proof. done. Qed.

Lemma join_notes_length hits notes :
  NoDup (map (fun n : Z * string * string => n.1.1) notes) ->
  (length (join_notes hits notes) <= length hits)%nat.
Proof.
  intros Hnd. induction hits as [|hit hits IH]; [done|].
  rewrite join_notes_cons, length_app, length_map. simpl.
  pose proof (filter_note_unique notes hit.1 Hnd). lia.
Qed.

Lemma join_notes_distinct hits notes :
  NoDup (map (fun n : Z * string * string => n.1.1) notes) ->
  NoDup (map fst hits) ->
  NoDup (map (fun r : Z * string * string * Q => r.1.1.1)
             (join_notes hits notes)).
Proof.
  intros Hnotes. induction hits as [|hit hits IH]; simpl map at 1.
  - intros _. constructor.
  - intros [Hfresh Hnd]%NoDup_cons.
    rewrite join_notes_cons, map_app, map_map. cbn [fst snd].
    pose proof (filter_note_unique notes hit.1 Hnotes) as Hone.
    apply NoDup_app. split; [|split; [|by apply IH]].
    + destruct (List.filter _ notes) as [|n [|m l]]; simpl in *;
        [constructor | apply NoDup_singleton | lia].
    + intros id Hin1 Hin2. apply Hfresh.
      apply list_elem_of_In, in_map_iff in Hin1 as (n & <- & Hn).
      apply filter_In in Hn as [_ Heq]. apply Z.eqb_eq in Heq.
      rewrite Heq in Hin2.
      apply list_elem_of_In, in_map_iff in Hin2 as (r & Hr & Hin2).
      apply list_elem_of_In, join_notes_elem in Hin2 as [Hhit _].
      rewrite Hr in Hhit.
      apply list_elem_of_In. apply in_map_iff.
      exists (hit.1, r.2). split; [done|]. by apply list_elem_of_In.
Qed.

Lemma filter_keys_distinct {B : Type} (f : Z * B -> bool) (l : list (Z * B)) :
  NoDup (map fst l) -> NoDup (map fst (List.filter f l)).
Proof.
  induction l as [|x l IH]; simpl; [done|].
  intros [Hfresh Hnd]%NoDup_cons.
  destruct (f x); simpl; [|by apply IH].
  apply NoDup_cons. split; [|by apply IH].
  intros Hin. apply Hfresh.
  apply list_elem_of_In, in_map_iff in Hin as (y & Hy & Hin).
  apply filter_In in Hin as [Hin _].
  apply list_elem_of_In, in_map_iff. by exists y.
Qed.

Lemma filter_length_le {B : Type} (f : B -> bool) (l : list B) :
  (length (List.filter f l) <= length l)%nat.
Proof. induction l as [|x l IH]; simpl; [lia|]. destruct (f x); simpl; lia. Qed.

Section RetrievalMore.

Context {vector blob : Type} (tobytes : vector -> blob).
Variable C : collaborators vector blob.

Lemma get_embedding_run model text w v vs :
  embeddings_create C (length (requests w)) model [text] = Returned (v :: vs) ->
  _get_embedding_cached C model text w
  = (Returned v, World (note_embeddings w) (conn_rows w) (log w)
                       (requests w ++ [[text]]) (sleeps w)).
Proof.
  intros He.
  unfold _get_embedding_cached, try_except, bind, client_embeddings_create.
  by rewrite He.
Qed.

Lemma semantic_attempt_run query limit w v vs :
  embeddings_create C (length (requests w)) embedding_model [query]
    = Returned (v :: vs) ->
  semantic_attempt tobytes C query limit w
  = (match vss_search C (note_embeddings w) (tobytes v) limit with
     | Raised e => Raised e
     | Returned nn =>
         Returned (map row_result (vector_rows C (note_embeddings w) nn))
     end,
     World (note_embeddings w) (note_embeddings w) (log w)
           (requests w ++ [[query]]) (sleeps w)).
Proof.
  intros He. unfold semantic_attempt, bind.
  rewrite (get_embedding_run _ _ _ _ _ He).
  unfold with_connection, bind, execute_vss, connect, vector_rows, ret.
  cbn [fst snd note_embeddings conn_rows log requests sleeps].
  by destruct (vss_search C (note_embeddings w) (tobytes v) limit).
Qed.

Lemma semantic_search_run_ok query limit w v vs nn :
  embeddings_create C (length (requests w)) embedding_model [query]
    = Returned (v :: vs) ->
  vss_search C (note_embeddings w) (tobytes v) limit = Returned nn ->
  semantic_search tobytes C query limit w
  = (Returned (map row_result (vector_rows C (note_embeddings w) nn)),
     World (note_embeddings w) (note_embeddings w) (log w)
           (requests w ++ [[query]]) (sleeps w)).
Proof.
  intros He Hnn. unfold semantic_search, try_except.
  by rewrite (semantic_attempt_run _ _ _ _ _ He), Hnn.
Qed.

(** X1: when the provider returns an embedding and the vss statement
    succeeds, [semantic_search] returns results whose distances ascend,
    and logs nothing. *)
Theorem semantic_search_ascending query limit w v vs nn :
  embeddings_create C (length (requests w)) embedding_model [query]
    = Returned (v :: vs) ->
  vss_search C (note_embeddings w) (tobytes v) limit = Returned nn ->
  exists rs,
    (semantic_search tobytes C query limit w).1 = Returned rs /\
    ascending (scores rs) /\
    log (semantic_search tobytes C query limit w).2 = log w.
Proof.
  intros He Hnn. rewrite (semantic_search_run_ok _ _ _ _ _ _ He Hnn).
  eexists. split; [done|]. split; [|done].
  unfold scores, ascending, vector_rows. rewrite map_map.
  eapply StronglySorted_map; [|apply order_by_sorted]. done.
Qed.

(** X2: every result of the vector path is a row of the [notes] table
    joined with a neighbour the vss search returned for it, and its note has
    a stored embedding: a neighbour whose note is gone is dropped. *)
Theorem semantic_results_are_stored_notes query limit w v vs nn rs r :
  embeddings_create C (length (requests w)) embedding_model [query]
    = Returned (v :: vs) ->
  vss_search C (note_embeddings w) (tobytes v) limit = Returned nn ->
  (semantic_search tobytes C query limit w).1 = Returned rs ->
  r ∈ rs ->
  (note_id r, title r, content r) ∈ notes_table C /\
  (note_id r, distance r) ∈ nn /\
  is_Some (note_embeddings w !! note_id r).
Proof.
  intros He Hnn. rewrite (semantic_search_run_ok _ _ _ _ _ _ He Hnn).
  intros [= <-] Hr.
  apply list_elem_of_In, in_map_iff in Hr as (row & <- & Hrow).
  apply list_elem_of_In in Hrow. unfold vector_rows in Hrow.
  rewrite order_by_perm in Hrow.
  apply join_notes_elem in Hrow as [Hhit Hnote]. simpl.
  split; [exact Hnote|].
  apply list_elem_of_In, filter_In in Hhit as [Hhit Hstored].
  split; [by apply list_elem_of_In|].
  simpl in Hstored. by destruct (note_embeddings w !! row.1.1.1).
Qed.

(** X3: when note ids are unique and the vss search returns each id at
    most once, the vector path returns no note twice and no more results
    than the vss search returned neighbours. *)
Theorem semantic_results_distinct query limit w v vs nn rs :
  embeddings_create C (length (requests w)) embedding_model [query]
    = Returned (v :: vs) ->
  vss_search C (note_embeddings w) (tobytes v) limit = Returned nn ->
  NoDup (map (fun n : Z * string * string => n.1.1) (notes_table C)) ->
  NoDup (map fst nn) ->
  (semantic_search tobytes C query limit w).1 = Returned rs ->
  NoDup (map note_id rs) /\ (length rs <= length nn)%nat.
Proof.
  intros He Hnn Hnotes Hnd. rewrite (semantic_search_run_ok _ _ _ _ _ _ He Hnn).
  intros [= <-]. unfold vector_rows. split.
  - rewrite map_map. cbn [row_result note_id].
    rewrite (Permutation_map _ (order_by_perm _ _)).
    apply join_notes_distinct; [done|]. by apply filter_keys_distinct.
  - rewrite length_map, (Permutation_length (order_by_perm _ _)).
    etrans; [by apply join_notes_length|]. apply filter_length_le.
Qed.

(** X4: a vss statement that raises anything but
    [sqlite3.OperationalError] is not recovered: [semantic_search] raises
    that exception, logs nothing and the FTS5 index is not asked. *)
Theorem semantic_search_other_database_error query limit w v vs e :
  embeddings_create C (length (requests w)) embedding_model [query]
    = Returned (v :: vs) ->
  vss_search C (note_embeddings w) (tobytes v) limit = Raised e ->
  is_OperationalError e = false ->
  (semantic_search tobytes C query limit w).1 = Raised e /\
  log (semantic_search tobytes C query limit w).2 = log w.
Proof.
  intros He Hvss Hop. unfold semantic_search, try_except.
  rewrite (semantic_attempt_run _ _ _ _ _ He), Hvss, Hop. done.
Qed.

(** X5: a provider response with an empty [data] list makes
    [response.data[0]] raise [IndexError]; the error is logged and raised to
    the caller of [semantic_search], without fallback. *)
Theorem semantic_search_empty_response query limit w :
  embeddings_create C (length (requests w)) embedding_model [query]
    = Returned [] ->
  (semantic_search tobytes C query limit w).1
    = Raised (Exc IndexError "list index out of range") /\
  log (semantic_search tobytes C query limit w).2
    = log w ++ [(ERROR, "Error generating embedding: list index out of range")].
Proof.
  intros He.
  unfold semantic_search, try_except, semantic_attempt, bind,
    _get_embedding_cached, try_except, bind, client_embeddings_create.
  rewrite He. done.
Qed.

(** X6: whatever happens, [semantic_search] calls the provider exactly
    once, with the query as only text, never sleeps and leaves the
    [note_embeddings] table as it was. *)
Theorem semantic_search_one_call_no_write query limit w :
  requests (semantic_search tobytes C query limit w).2
    = requests w ++ [[query]] /\
  note_embeddings (semantic_search tobytes C query limit w).2
    = note_embeddings w /\
  sleeps (semantic_search tobytes C query limit w).2 = sleeps w.
Proof.
  unfold semantic_search, try_except, semantic_attempt, bind,
    _get_embedding_cached, try_except, bind, client_embeddings_create.
  destruct (embeddings_create C (length (requests w)) embedding_model [query])
    as [[|v vs]|e]; cbn [fst snd is_Exception raise logger ret].
  - done.
  - unfold with_connection, bind, execute_vss, connect, ret.
    cbn [fst snd note_embeddings conn_rows log requests sleeps].
    destruct (vss_search C (note_embeddings w) (tobytes v) limit) as [nn|e];
      [done|].
    destruct (is_OperationalError e); [|done].
    unfold logger, fallback_text_search, with_connection, bind, execute_fts,
      connect, ret.
    cbn [fst snd note_embeddings conn_rows log requests sleeps].
    by destruct (fts_match C query).
  - destruct (is_OperationalError e); [|done].
    unfold logger, fallback_text_search, with_connection, bind, execute_fts,
      connect, ret.
    cbn [fst snd note_embeddings conn_rows log requests sleeps].
    by destruct (fts_match C query).
Qed.

(** X7: when the vss statement raises [sqlite3.OperationalError], the
    fallback leaves exactly one trace: the error record
    [Database error during search: ...] with the message of that
    exception. *)
Theorem semantic_search_fallback_log query limit w v vs e :
  embeddings_create C (length (requests w)) embedding_model [query]
    = Returned (v :: vs) ->
  vss_search C (note_embeddings w) (tobytes v) limit = Raised e ->
  is_OperationalError e = true ->
  log (semantic_search tobytes C query limit w).2
    = log w ++ [(ERROR, "Database error during search: " +:+ exc_msg e)].
Proof.
  intros He Hvss Hop. unfold semantic_search, try_except.
  rewrite (semantic_attempt_run _ _ _ _ _ He), Hvss, Hop.
  unfold logger, fallback_text_search, with_connection, bind, execute_fts,
    connect, ret.
  cbn [fst snd note_embeddings conn_rows log requests sleeps].
  by destruct (fts_match C query).
Qed.

(** X8: [fallback_text_search] returns at most [limit] results for a
    limit that is not negative, and none for limit 0. *)
Theorem fallback_text_search_limit query limit w rs :
  0 <= limit ->
  (fallback_text_search C query limit w).1 = Returned rs ->
  (length rs <= Z.to_nat limit)%nat.
Proof.
  intros Hlimit. rewrite fallback_text_search_outcome. unfold lexical_outcome.
  destruct (fts_match C query) as [hits|e]; [|done].
  intros [= <-]. rewrite !length_map. unfold sql_limit.
  destruct (Z.ltb_spec limit 0); [lia|].
  rewrite length_take. lia.
Qed.

(** X9: every result of [fallback_text_search] is a row of the [notes]
    table joined with an FTS5 hit on its id, and its score is that hit's
    rank times -1. *)
Theorem fallback_results_are_matching_notes query limit w rs r :
  (fallback_text_search C query limit w).1 = Returned rs ->
  r ∈ rs ->
  (note_id r, title r, content r) ∈ notes_table C /\
  exists hits rank,
    fts_match C query = Returned hits /\
    (note_id r, rank) ∈ hits /\
    distance r = (rank * (-1 # 1))%Q.
Proof.
  rewrite fallback_text_search_outcome. unfold lexical_outcome.
  destruct (fts_match C query) as [hits|e]; [|done].
  intros [= <-] Hr.
  apply list_elem_of_In, in_map_iff in Hr as (row' & <- & Hrow').
  apply in_map_iff in Hrow' as (row & <- & Hrow).
  assert (Hin : row ∈ join_notes hits (notes_table C)).
  { rewrite <- (order_by_perm (fun r : Z * string * string * Q => r.2)).
    unfold sql_limit in Hrow. apply list_elem_of_In in Hrow.
    destruct (limit <? 0); [done|].
    apply elem_of_take in Hrow as (i & Hi & _).
    by eapply list_elem_of_lookup_2. }
  apply join_notes_elem in Hin as [Hhit Hnote]. simpl.
  split; [exact Hnote|]. by exists hits, row.2.
Qed.

End RetrievalMore.

(** ** More on the embedding sync *)

Section SyncMore.

Context {vector blob : Type} (tobytes : vector -> blob).
Variable C : collaborators vector blob.

Lemma write_rows_done rows (l : list ((Z * string) * vector)) :
  (write_rows tobytes C rows l).1 = None ->
  (write_rows tobytes C rows l).2 = upsert_all tobytes rows l.
Proof.
  revert rows. induction l as [|p l IH]; intros rows; simpl; [done|].
  destruct (insert_error C p.1.1 (tobytes p.2)); [done|]. apply IH.
Qed.

Lemma batch_verdict_rows notes b i w rows :
  batch_verdict tobytes C notes b i w = Returned rows ->
  exists vs,
    embeddings_create C (length (requests w)) embedding_model
      (batch_texts notes b i) = Returned vs /\
    rows = upsert_all tobytes (conn_rows w) (zip (slice notes i (i + b)) vs).
Proof.
  unfold batch_verdict.
  destruct (embeddings_create C (length (requests w)) embedding_model
              (batch_texts notes b i)) as [vs|e]; [|done].
  cbv zeta.
  destruct ((write_rows tobytes C (conn_rows w)
               (zip (slice notes i (i + b)) vs)).1) eqn:Hw; [done|].
  destruct (commit_error C _); [done|].
  intros [= <-]. exists vs. split; [done|]. by apply write_rows_done.
Qed.

Lemma batch_verdict_accepted notes b i w :
  store_accepts C ->
  batch_verdict tobytes C notes b i w
  = match embeddings_create C (length (requests w)) embedding_model
            (batch_texts notes b i) with
    | Returned vs =>
        Returned (upsert_all tobytes (conn_rows w)
                    (zip (slice notes i (i + b)) vs))
    | Raised e => Raised e
    end.
Proof.
  intros [Hins Hcommit]. unfold batch_verdict.
  destruct (embeddings_create C (length (requests w)) embedding_model
              (batch_texts notes b i)) as [vs|e]; [|done].
  cbv zeta. rewrite write_rows_accepted by (intros; apply Hins).
  cbn [fst snd]. by rewrite Hcommit.
Qed.

(** A relation between tables that every batch's upserts respect holds
    between the table before the loop and the table after it. *)
Lemma sync_loop_invariant (R : gmap Z blob -> gmap Z blob -> Prop)
    notes b starts w :
  (forall m, R m m) ->
  (forall m1 m2 m3, R m1 m2 -> R m2 m3 -> R m1 m3) ->
  (forall m i vs, R m (upsert_all tobytes m (zip (slice notes i (i + b)) vs))) ->
  conn_rows w = note_embeddings w ->
  R (note_embeddings w)
    (note_embeddings (for_each starts (process_batch tobytes C notes b) w).2).
Proof.
  intros Hrefl Htrans Hstep. revert w.
  induction starts as [|i starts IH]; intros w Hconn; simpl; [done|].
  unfold bind. rewrite process_batch_run.
  destruct (batch_verdict tobytes C notes b i w) as [rows|e] eqn:Hv.
  - apply batch_verdict_rows in Hv as (vs & _ & ->). rewrite Hconn.
    eapply Htrans; [apply (Hstep _ i vs)|]. by apply (IH (World _ _ _ _ _)).
  - by apply (IH (World _ _ _ _ _)).
Qed.

Lemma add_embeddings_batch_invariant (R : gmap Z blob -> gmap Z blob -> Prop)
    notes b w :
  (forall m, R m m) ->
  (forall m1 m2 m3, R m1 m2 -> R m2 m3 -> R m1 m3) ->
  (forall m i vs, R m (upsert_all tobytes m (zip (slice notes i (i + b)) vs))) ->
  R (note_embeddings w)
    (note_embeddings (add_embeddings_batch tobytes C notes b w).2).
Proof.
  intros Hrefl Htrans Hstep. unfold add_embeddings_batch, with_connection.
  destruct (py_range (len notes) b) as [starts|e]; [|apply Hrefl].
  pose proof (sync_loop_invariant R notes b starts (connect w).2
                Hrefl Htrans Hstep eq_refl) as Hinv.
  by destruct (for_each starts (process_batch tobytes C notes b) (connect w).2).
Qed.

Lemma slice_ids_elem_of (notes : list (Z * string)) i j id :
  id ∈ map fst (slice notes i j) -> id ∈ map fst notes.
Proof.
  intros (p & <- & Hp)%list_elem_of_In%in_map_iff.
  apply list_elem_of_In, in_map_iff. exists p. split; [done|].
  apply list_elem_of_In. apply list_elem_of_In in Hp. unfold slice in Hp.
  apply elem_of_take in Hp as (k & Hk & _). rewrite lookup_drop in Hk.
  by eapply list_elem_of_lookup_2.
Qed.

Lemma upsert_all_is_Some rows (l : list ((Z * string) * vector)) id :
  is_Some (rows !! id) -> is_Some (upsert_all tobytes rows l !! id).
Proof.
  revert rows. induction l as [|p l IH]; intros rows Hid; [done|].
  apply (IH (<[p.1.1 := tobytes p.2]> rows)).
  apply lookup_insert_is_Some. destruct (decide (p.1.1 = id)); auto.
Qed.

Lemma upsert_all_written rows (l : list ((Z * string) * vector)) p :
  p ∈ l -> is_Some (upsert_all tobytes rows l !! p.1.1).
Proof.
  revert rows. induction l as [|q l IH]; intros rows Hp.
  - by apply elem_of_nil in Hp.
  - apply elem_of_cons in Hp as [->|Hp].
    + apply (upsert_all_is_Some (<[q.1.1 := tobytes q.2]> rows)).
      rewrite lookup_insert_eq. by eexists.
    + by apply (IH (<[q.1.1 := tobytes q.2]> rows)).
Qed.

Lemma upsert_all_app rows (l1 l2 : list ((Z * string) * vector)) :
  upsert_all tobytes rows (l1 ++ l2)
  = upsert_all tobytes (upsert_all tobytes rows l1) l2.
Proof. unfold upsert_all. apply foldl_app. Qed.

Lemma upsert_all_union rows (l : list ((Z * string) * vector)) :
  upsert_all tobytes rows l
  = list_to_map
      (reverse (map (fun p : (Z * string) * vector => (p.1.1, tobytes p.2)) l))
    ∪ rows.
Proof.
  revert rows. induction l as [|p l IH]; intros rows.
  - simpl. by rewrite (left_id_L ∅ (∪)).
  - change (upsert_all tobytes rows (p :: l))
      with (upsert_all tobytes (<[p.1.1 := tobytes p.2]> rows) l).
    rewrite IH. simpl map. rewrite reverse_cons, list_to_map_app.
    rewrite <- (assoc_L (∪)). f_equal. simpl.
    by rewrite <- insert_union_l, (left_id_L ∅ (∪)).
Qed.

Lemma upsert_all_twice rows (l : list ((Z * string) * vector)) :
  upsert_all tobytes (upsert_all tobytes rows l) l = upsert_all tobytes rows l.
Proof.
  rewrite (upsert_all_union (upsert_all tobytes rows l)), upsert_all_union.
  by rewrite (assoc_L (∪)), (idemp_L (∪)).
Qed.

Lemma sync_loop_writes notes b starts w :
  store_accepts C ->
  conn_rows w = note_embeddings w ->
  note_embeddings (for_each starts (process_batch tobytes C notes b) w).2
  = upsert_all tobytes (note_embeddings w)
      (sync_writes C notes b (length (requests w)) starts).
Proof.
  intros Hacc. revert w.
  induction starts as [|i starts IH]; intros w Hconn; simpl; [done|].
  unfold bind. rewrite process_batch_run, batch_verdict_accepted by done.
  destruct (embeddings_create C (length (requests w)) embedding_model
              (batch_texts notes b i)) as [vs|e].
  - rewrite (IH (World _ _ _ _ _)) by done.
    cbn [note_embeddings requests]. rewrite length_app, Nat.add_1_r. simpl.
    by rewrite upsert_all_app, Hconn.
  - rewrite (IH (World _ _ _ _ _)) by done.
    cbn [note_embeddings requests]. by rewrite length_app, Nat.add_1_r.
Qed.

Lemma sync_writes_index notes b n m starts :
  (forall k ts, embeddings_create C k embedding_model ts
                = embeddings_create C 0 embedding_model ts) ->
  sync_writes C notes b n starts = sync_writes C notes b m starts.
Proof.
  intros Hind. revert n m.
  induction starts as [|i starts IH]; intros n m; simpl; [done|].
  rewrite (Hind n), (Hind m). f_equal. apply IH.
Qed.

Lemma zip_covers_left {A B : Type} (l : list A) (k : list B) x :
  (length l <= length k)%nat -> x ∈ l -> exists y, (x, y) ∈ zip l k.
Proof.
  revert k. induction l as [|a l IH]; intros [|y k] Hlen Hx; simpl in *;
    try (by apply elem_of_nil in Hx); try lia.
  apply elem_of_cons in Hx as [->|Hx].
  - exists y. left.
  - destruct (IH k ltac:(lia) Hx) as [y' Hy']. exists y'. by right.
Qed.

Lemma sync_writes_cover notes b n starts i p :
  (forall k ts, exists vs,
      embeddings_create C k embedding_model ts = Returned vs /\
      length vs = length ts) ->
  i ∈ starts -> p ∈ slice notes i (i + b) ->
  exists v, (p, v) ∈ sync_writes C notes b n starts.
Proof.
  intros Hall. revert n.
  induction starts as [|j starts IH]; intros n Hi Hp; simpl.
  - by apply elem_of_nil in Hi.
  - apply elem_of_cons in Hi as [->|Hi].
    + destruct (Hall n (batch_texts notes b j)) as (vs & -> & Hlen).
      unfold batch_texts in Hlen. rewrite length_map in Hlen.
      destruct (zip_covers_left (slice notes j (j + b)) vs p) as [v Hv];
        [lia|done|].
      exists v. apply elem_of_app. by left.
    + destruct (IH (S n) Hi Hp) as [v Hv]. exists v.
      apply elem_of_app. by right.
Qed.

Lemma notes_in_some_batch (notes : list (Z * string)) b p :
  0 < b -> p ∈ notes ->
  exists i,
    i ∈ range_loop (Z.to_nat (len notes)) 0 (len notes) b /\
    p ∈ slice notes i (i + b).
Proof.
  intros Hb Hp.
  pose proof (range_loop_concat notes (Z.to_nat (len notes)) 0 b) as Hcat.
  rewrite Z.sub_0_r in Hcat. specialize (Hcat ltac:(lia) Hb ltac:(lia)).
  change (drop (Z.to_nat 0) notes) with notes in Hcat.
  rewrite <- Hcat in Hp.
  apply list_elem_of_In, in_concat in Hp as (chunk & Hchunk & Hp).
  apply in_map_iff in Hchunk as (i & <- & Hi).
  exists i. split; by apply list_elem_of_In.
Qed.

Lemma batch_calls_concat (notes : list (Z * string)) b :
  0 < b -> concat (batch_calls notes b) = map snd notes.
Proof.
  intros Hb. unfold batch_calls, batch_texts.
  rewrite <- (map_map (fun j => slice notes j (j + b)) (map snd)).
  by rewrite <- concat_map, range_loop_concat by lia.
Qed.

Lemma sync_loop_log notes b starts w :
  exists recs,
    log (for_each starts (process_batch tobytes C notes b) w).2
      = log w ++ recs /\
    Forall2 (fun i r =>
               r = (INFO, processed_message notes b i) \/
               exists e, r = (ERROR, batch_error_message e))
            starts recs.
Proof.
  revert w. induction starts as [|i starts IH]; intros w; simpl.
  - exists []. by rewrite app_nil_r.
  - unfold bind. rewrite process_batch_run.
    destruct (batch_verdict tobytes C notes b i w) as [rows|e].
    + destruct (IH (World rows rows
                      (log w ++ [(INFO, processed_message notes b i)])
                      (requests w ++ [batch_texts notes b i]) (S (sleeps w))))
        as (recs & -> & Hrecs).
      exists ((INFO, processed_message notes b i) :: recs).
      cbn [log]. rewrite <- app_assoc. split; [done|].
      constructor; [by left|done].
    + destruct (IH (World (note_embeddings w) (note_embeddings w)
                      (log w ++ [(ERROR, batch_error_message e)])
                      (requests w ++ [batch_texts notes b i]) (S (sleeps w))))
        as (recs & -> & Hrecs).
      exists ((ERROR, batch_error_message e) :: recs).
      cbn [log]. rewrite <- app_assoc. split; [done|].
      constructor; [right; by eexists|done].
Qed.

(** X10: a sync writes only rows of the notes it was given: the row, or
    absence of row, of every other id is what it was, whatever the provider
    and the store do and whatever the batch size. *)
Theorem sync_touches_only_given_notes notes b w id :
  id ∉ map fst notes ->
  note_embeddings (add_embeddings_batch tobytes C notes b w).2 !! id
    = note_embeddings w !! id.
Proof.
  intros Hid.
  apply (add_embeddings_batch_invariant (fun m m' => m' !! id = m !! id)).
  - done.
  - intros m1 m2 m3 H12 H23. by rewrite H23.
  - intros m i vs. apply upsert_all_lookup_other.
    intros Hin. apply Hid.
    apply zip_ids_elem_of in Hin. by eapply slice_ids_elem_of.
Qed.

(** X11: a sync never removes an embedding: an id that has a row before
    has one after, whatever the provider and the store do. *)
Theorem sync_never_removes notes b w id :
  is_Some (note_embeddings w !! id) ->
  is_Some (note_embeddings (add_embeddings_batch tobytes C notes b w).2 !! id).
Proof.
  apply (add_embeddings_batch_invariant
           (fun m m' => is_Some (m !! id) -> is_Some (m' !! id))).
  - done.
  - auto.
  - intros m i vs. apply upsert_all_is_Some.
Qed.

Lemma add_embeddings_batch_writes notes b w :
  0 < b ->
  store_accepts C ->
  note_embeddings (add_embeddings_batch tobytes C notes b w).2
  = upsert_all tobytes (note_embeddings w)
      (sync_writes C notes b (length (requests w))
         (range_loop (Z.to_nat (len notes)) 0 (len notes) b)).
Proof.
  intros Hb Hacc.
  rewrite (add_embeddings_batch_run _ _ _ _ _ _ (py_range_positive _ _ Hb)).
  cbn [snd connect note_embeddings].
  by rewrite sync_loop_writes.
Qed.

(** X12: on a store that accepts every write, the table after a sync is
    the table before it with the pairs of the batches whose provider call
    returned upserted in order; a batch whose call raised contributes
    nothing. *)
Theorem sync_final_table notes b w :
  0 < b ->
  store_accepts C ->
  note_embeddings (add_embeddings_batch tobytes C notes b w).2
  = upsert_all tobytes (note_embeddings w)
      (sync_writes C notes b (length (requests w))
         (range_loop (Z.to_nat (len notes)) 0 (len notes) b)).
Proof. apply add_embeddings_batch_writes. Qed.

(** X13: when every provider call returns one embedding per text and the
    store accepts every write, every note given to the sync has an
    embedding row afterwards. *)
Theorem sync_embeds_every_note notes b w id :
  0 < b ->
  store_accepts C ->
  (forall k ts, exists vs,
      embeddings_create C k embedding_model ts = Returned vs /\
      length vs = length ts) ->
  id ∈ map fst notes ->
  is_Some (note_embeddings (add_embeddings_batch tobytes C notes b w).2 !! id).
Proof.
  intros Hb Hacc Hall Hid. rewrite add_embeddings_batch_writes by done.
  apply list_elem_of_In, in_map_iff in Hid as (p & <- & Hp).
  apply list_elem_of_In in Hp.
  destruct (notes_in_some_batch notes b p Hb Hp) as (i & Hi & Hpi).
  destruct (sync_writes_cover notes b (length (requests w)) _ i p Hall Hi Hpi)
    as [v Hv].
  apply (upsert_all_written (note_embeddings w) _ (p, v) Hv).
Qed.

(** X14: re-running the sync is safe.  When the provider answers the same
    texts the same way on every call and the store accepts every write, a
    second sync of the same notes leaves the table the first one left. *)
Theorem sync_twice_same_table notes b w :
  0 < b ->
  store_accepts C ->
  (forall k ts, embeddings_create C k embedding_model ts
                = embeddings_create C 0 embedding_model ts) ->
  note_embeddings
    (add_embeddings_batch tobytes C notes b
       (add_embeddings_batch tobytes C notes b w).2).2
  = note_embeddings (add_embeddings_batch tobytes C notes b w).2.
Proof.
  intros Hb Hacc Hind.
  rewrite (add_embeddings_batch_writes notes b
             (add_embeddings_batch tobytes C notes b w).2) by done.
  rewrite (add_embeddings_batch_writes notes b w) by done.
  rewrite (sync_writes_index notes b
             (length (requests (add_embeddings_batch tobytes C notes b w).2))
             (length (requests w))) by done.
  apply upsert_all_twice.
Qed.

(** X15: the sync pauses once after every batch, failed or not:
    [ceil(n/b)] sleeps for [n] notes and a positive batch size [b]. *)
Theorem sync_sleeps_once_per_batch notes b w :
  0 < b ->
  sleeps (add_embeddings_batch tobytes C notes b w).2
  = (sleeps w + Z.to_nat ((len notes + b - 1) / b))%nat.
Proof.
  intros Hb.
  rewrite (add_embeddings_batch_run _ _ _ _ _ _ (py_range_positive _ _ Hb)).
  destruct (for_each_process_batch tobytes C notes b
              (range_loop (Z.to_nat (len notes)) 0 (len notes) b)
              (connect w).2) as (_ & _ & Hsleeps & _).
  cbn [snd connect sleeps] in *. rewrite Hsleeps.
  rewrite range_loop_length by lia.
  do 3 f_equal. lia.
Qed.

(** X16: the sync logs exactly one record per batch, in batch order: the
    [Processed batch] line of that batch, or an [Error processing batch]
    line. *)
Theorem sync_logs_one_record_per_batch notes b w :
  0 < b ->
  exists recs,
    log (add_embeddings_batch tobytes C notes b w).2 = log w ++ recs /\
    Forall2 (fun i r =>
               r = (INFO, processed_message notes b i) \/
               exists e, r = (ERROR, batch_error_message e))
            (range_loop (Z.to_nat (len notes)) 0 (len notes) b) recs.
Proof.
  intros Hb.
  rewrite (add_embeddings_batch_run _ _ _ _ _ _ (py_range_positive _ _ Hb)).
  cbn [snd connect log].
  apply (sync_loop_log notes b _ (connect w).2).
Qed.

(** X17: the progress line counts right: for the [k]-th batch (from 0) it
    reads [Processed batch k+1/N], where [N] is the number of batches the
    sync makes. *)
Theorem processed_message_counts (notes : list (Z * string)) b k i :
  0 < b ->
  range_loop (Z.to_nat (len notes)) 0 (len notes) b !! k = Some i ->
  processed_message notes b i
  = "Processed batch " +:+ pretty (Z.of_nat k + 1) +:+ "/"
      +:+ pretty (Z.of_nat (length (batch_calls notes b))).
Proof.
  intros Hb Hk. apply range_loop_lookup in Hk as [-> Hlt].
  unfold processed_message, batch_calls.
  rewrite length_map, range_loop_length by lia.
  rewrite Z.add_0_l, Z.div_mul by lia.
  replace (len notes - 0 + b - 1) with (len notes - 1 + 1 * b) by lia.
  rewrite Z.div_add by lia.
  assert (0 <= (len notes - 1) / b) by (apply Z.div_pos; lia).
  rewrite Z2Nat.id by lia. done.
Qed.

(** X18: a batch size of 0 makes [range] raise [ValueError]: the sync
    raises it to the caller before any provider call, write or log
    record. *)
Theorem sync_zero_batch_size notes w :
  (add_embeddings_batch tobytes C notes 0 w).1
    = Raised (Exc ValueError "range() arg 3 must not be zero") /\
  requests (add_embeddings_batch tobytes C notes 0 w).2 = requests w /\
  note_embeddings (add_embeddings_batch tobytes C notes 0 w).2
    = note_embeddings w /\
  log (add_embeddings_batch tobytes C notes 0 w).2 = log w.
Proof. done. Qed.

(** X19: with a negative batch size the loop has no turn: the sync
    returns at once, having called nobody, written, logged and slept
    nothing, however many notes it was given. *)
Theorem sync_negative_batch_size notes b w :
  b < 0 ->
  (add_embeddings_batch tobytes C notes b w).1 = Returned tt /\
  requests (add_embeddings_batch tobytes C notes b w).2 = requests w /\
  note_embeddings (add_embeddings_batch tobytes C notes b w).2
    = note_embeddings w /\
  log (add_embeddings_batch tobytes C notes b w).2 = log w /\
  sleeps (add_embeddings_batch tobytes C notes b w).2 = sleeps w.
Proof.
  intros Hb. unfold add_embeddings_batch, with_connection, py_range.
  destruct (Z.eqb_spec b 0); [lia|].
  destruct (Z.ltb_spec b 0); [done|lia].
Qed.

(** X20: when the [notes] table cannot be read, [update_all_embeddings]
    raises that error to its caller, having called nobody and written and
    logged nothing. *)
Theorem update_all_embeddings_unreadable_notes w e :
  select_notes_error C = Some e ->
  (update_all_embeddings tobytes C w).1 = Raised e /\
  requests (update_all_embeddings tobytes C w).2 = requests w /\
  note_embeddings (update_all_embeddings tobytes C w).2 = note_embeddings w /\
  log (update_all_embeddings tobytes C w).2 = log w.
Proof.
  intros Hsel.
  unfold update_all_embeddings, with_connection, bind, select_notes.
  by rewrite Hsel.
Qed.

(** X21: with an empty [notes] table [update_all_embeddings] returns after
    logging [Updating embeddings for 0 notes]: no provider call, no
    write. *)
Theorem update_all_embeddings_no_notes w :
  select_notes_error C = None ->
  notes_table C = [] ->
  (update_all_embeddings tobytes C w).1 = Returned tt /\
  log (update_all_embeddings tobytes C w).2
    = log w ++ [(INFO, "Updating embeddings for 0 notes")] /\
  requests (update_all_embeddings tobytes C w).2 = requests w /\
  note_embeddings (update_all_embeddings tobytes C w).2 = note_embeddings w.
Proof.
  intros Hsel Hnone.
  rewrite (update_all_embeddings_run _ _ _ Hsel), Hnone. done.
Qed.

(** X22: [update_all_embeddings] sends the provider, for every note of the
    table and in table order, the title and the content joined by one
    space, in batches of 10. *)
Theorem update_all_embeddings_texts w :
  select_notes_error C = None ->
  exists calls,
    requests (update_all_embeddings tobytes C w).2 = requests w ++ calls /\
    concat calls
      = map (fun n : Z * string * string => n.1.2 +:+ " " +:+ n.2)
            (notes_table C) /\
    Forall (fun texts => (length texts <= 10)%nat) calls.
Proof.
  intros Hsel. rewrite (update_all_embeddings_run _ _ _ Hsel). cbv zeta.
  set (notes := map _ (notes_table C)).
  set (w1 := World _ _ _ _ _).
  destruct (add_embeddings_batch_requests tobytes C notes 10 w1 eq_refl)
    as [_ Hreq].
  exists (batch_calls notes 10). cbn [snd connect requests].
  split; [exact Hreq|]. split.
  - rewrite batch_calls_concat by done. unfold notes. by rewrite map_map.
  - apply Forall_forall. intros texts Hin.
    unfold batch_calls in Hin.
    apply list_elem_of_In, in_map_iff in Hin as (i & <- & Hi).
    apply list_elem_of_In, list_elem_of_lookup_1 in Hi as [k Hk].
    apply range_loop_lookup in Hk as [-> _].
    unfold batch_texts. rewrite length_map, slice_length by lia. lia.
Qed.

Lemma zip_take_right {A B : Type} (l : list A) (k : list B) :
  zip l k = zip l (take (length l) k).
Proof.
  revert k. induction l as [|a l IH]; intros [|y k]; simpl; try done.
  by rewrite <- IH.
Qed.

Lemma batch_verdict_rejected notes b i w rows :
  (forall id x, is_Some (insert_error C id x)) ->
  batch_verdict tobytes C notes b i w = Returned rows ->
  rows = conn_rows w.
Proof.
  intros Hrej. unfold batch_verdict.
  destruct (embeddings_create C (length (requests w)) embedding_model
              (batch_texts notes b i)) as [vs|e]; [|done].
  cbv zeta. destruct (zip (slice notes i (i + b)) vs) as [|p l]; simpl.
  - destruct (commit_error C (conn_rows w)); [done|]. by intros [= <-].
  - by destruct (Hrej p.1.1 (tobytes p.2)) as [e ->].
Qed.

Lemma sync_loop_rejected notes b starts w :
  (forall id x, is_Some (insert_error C id x)) ->
  conn_rows w = note_embeddings w ->
  note_embeddings (for_each starts (process_batch tobytes C notes b) w).2
  = note_embeddings w.
Proof.
  intros Hrej. revert w.
  induction starts as [|i starts IH]; intros w Hconn; simpl; [done|].
  unfold bind. rewrite process_batch_run.
  destruct (batch_verdict tobytes C notes b i w) as [rows|e] eqn:Hv.
  - apply batch_verdict_rejected in Hv as ->; [|done].
    rewrite (IH (World _ _ _ _ _)) by done. done.
  - by rewrite (IH (World _ _ _ _ _)).
Qed.

Lemma sync_writes_batch notes b n starts k i vs q :
  starts !! k = Some i ->
  embeddings_create C (n + k) embedding_model (batch_texts notes b i)
    = Returned vs ->
  q ∈ zip (slice notes i (i + b)) vs ->
  q ∈ sync_writes C notes b n starts.
Proof.
  revert n k. induction starts as [|j starts IH]; intros n k Hk Hvs Hq;
    [done|].
  simpl. apply elem_of_app. destruct k as [|k]; simpl in Hk.
  - injection Hk as ->. rewrite Nat.add_0_r in Hvs. rewrite Hvs. by left.
  - right. apply (IH (S n) k); [done| |done].
    by replace (S n + k)%nat with (n + S k)%nat by lia.
Qed.

(** X23: embeddings the provider returns beyond the number of notes of the
    batch are ignored: on a store that accepts the writes the batch commits
    the pairing of its notes with the first embeddings only, and is logged
    as processed. *)
Theorem surplus_embeddings_ignored notes b i w vs :
  store_accepts C ->
  embeddings_create C (length (requests w)) embedding_model
    (batch_texts notes b i) = Returned vs ->
  note_embeddings (process_batch tobytes C notes b i w).2
    = upsert_all tobytes (conn_rows w)
        (zip (slice notes i (i + b))
             (take (length (slice notes i (i + b))) vs)) /\
  log (process_batch tobytes C notes b i w).2
    = log w ++ [(INFO, processed_message notes b i)].
Proof.
  intros Hacc Hvs. rewrite process_batch_run, batch_verdict_accepted by done.
  rewrite Hvs. cbn [snd note_embeddings log]. by rewrite <- zip_take_right.
Qed.

(** X24: when the store rejects every insert (the [note_embeddings] table
    is missing), the sync still calls the provider for every batch and
    returns without raising, and the table is what it was. *)
Theorem sync_rejecting_store notes b w :
  0 < b ->
  (forall id x, is_Some (insert_error C id x)) ->
  (add_embeddings_batch tobytes C notes b w).1 = Returned tt /\
  requests (add_embeddings_batch tobytes C notes b w).2
    = requests w ++ batch_calls notes b /\
  note_embeddings (add_embeddings_batch tobytes C notes b w).2
    = note_embeddings w.
Proof.
  intros Hb Hrej.
  destruct (add_embeddings_batch_requests tobytes C notes b w Hb) as [Hret Hreq].
  split; [exact Hret|]. split; [exact Hreq|].
  rewrite (add_embeddings_batch_run _ _ _ _ _ _ (py_range_positive _ _ Hb)).
  cbn [snd connect note_embeddings].
  by rewrite sync_loop_rejected.
Qed.

(** X25: a failed batch does not cost the others their embeddings: on a
    store that accepts the writes, every note of a batch whose own provider
    call returned one embedding per text has a row after the sync, whatever
    happened to the other batches. *)
Theorem good_batch_is_stored notes b w k i vs p :
  0 < b ->
  store_accepts C ->
  range_loop (Z.to_nat (len notes)) 0 (len notes) b !! k = Some i ->
  embeddings_create C (length (requests w) + k) embedding_model
    (batch_texts notes b i) = Returned vs ->
  length vs = length (batch_texts notes b i) ->
  p ∈ slice notes i (i + b) ->
  is_Some (note_embeddings (add_embeddings_batch tobytes C notes b w).2 !! p.1).
Proof.
  intros Hb Hacc Hk Hvs Hlen Hp. rewrite add_embeddings_batch_writes by done.
  unfold batch_texts in Hlen. rewrite length_map in Hlen.
  destruct (zip_covers_left (slice notes i (i + b)) vs p) as [v Hv];
    [lia|done|].
  apply (upsert_all_written (note_embeddings w) _ (p, v)).
  by eapply sync_writes_batch.
Qed.

End SyncMore.

(** ** What a sync reports *)

Section SyncReport.

Context {vector blob : Type} (tobytes : vector -> blob).
Variable C : collaborators vector blob.




End SyncReport.

(** ** The properties at concrete stores *)

Import Scenario.

(** A provider that is rate limited: the search raises its error. *)
Lemma semantic_search_provider_error_witness :
  is_ProviderError rate_limited = true /\
  (semantic_search tobytes provider_down quantum 5 w0).1 = Raised rate_limited /\
  log (semantic_search tobytes provider_down quantum 5 w0).2
    = log w0 ++ [(ERROR, "Error generating embedding: " +:+ exc_msg rate_limited)].
Proof.
  split; [reflexivity|].
  apply (semantic_search_provider_error tobytes provider_down quantum 5 w0
           rate_limited); reflexivity.
Defined.

(** C1 fails as stated: with the provider down and a healthy FTS5 index,
    [semantic_search] raises the provider's error, while the lexical
    fallback would have returned results. *)
Lemma provider_outage_is_raised :
  embeddings_create provider_down 0 embedding_model [quantum]
    = Raised rate_limited /\
  is_ProviderError rate_limited = true /\
  (semantic_search tobytes provider_down quantum 5 w0).1 = Raised rate_limited /\
  (semantic_search tobytes provider_down quantum 5 w0).1
    <> (fallback_text_search provider_down quantum 5 w0).1.
Proof.
  repeat split; try reflexivity.
  vm_compute. discriminate.
Qed.

(** C2 at two FTS5 hits, note 1 with rank -2 and note 2 with rank -1:
    [fallback_text_search] returns note 1 first with score 2, then note 2
    with score 1.  The best match has the highest score and the scores are
    not ascending. *)
Theorem fallback_scores_at_two_hits :
  exists rs,
    (fallback_text_search lexical_only quantum 5 w0).1 = Returned rs /\
    map note_id rs = [1; 2] /\
    scores rs = [(2 # 1)%Q; (1 # 1)%Q] /\
    ~ ascending (scores rs).
Proof.
  eexists. split; [vm_compute; reflexivity|].
  split; [reflexivity|]. split; [reflexivity|].
  unfold ascending, scores. simpl. intros Hsorted.
  apply StronglySorted_inv in Hsorted as [_ Hhead].
  apply Forall_inv in Hhead. unfold Qle in Hhead. simpl in Hhead. lia.
Qed.

(** No vss extension, a healthy provider: the search answers as the
    lexical search does. *)
Lemma semantic_search_vss_unavailable_witness :
  vss_unavailable lexical_only /\
  (semantic_search tobytes lexical_only quantum 5 w0).1
    = (fallback_text_search lexical_only quantum 5 w0).1.
Proof.
  assert (Hun : vss_unavailable lexical_only).
  { intros rows b k. exists no_vss. split; reflexivity. }
  split; [exact Hun|].
  apply (semantic_search_vss_unavailable tobytes lexical_only quantum 5 w0
           (embed quantum) []); [exact Hun|reflexivity].
Defined.

(** C3 fails as stated: the vector search is unavailable, yet with the
    provider down [semantic_search] does not return what the lexical
    search returns. *)
Lemma unavailable_vss_with_provider_down :
  vss_unavailable provider_down /\
  (exists rs, (fallback_text_search provider_down quantum 5 w0).1 = Returned rs) /\
  (semantic_search tobytes provider_down quantum 5 w0).1
    <> (fallback_text_search provider_down quantum 5 w0).1.
Proof.
  split; [|split].
  - intros rows b k. exists no_vss. split; reflexivity.
  - eexists. vm_compute. reflexivity.
  - vm_compute. discriminate.
Qed.

(** No vss extension and no FTS5 table: the caller gets the FTS5 error. *)
Lemma fallback_failure_propagates_witness :
  (semantic_attempt tobytes both_down quantum 5 w0).1 = Raised no_vss /\
  is_OperationalError no_vss = true /\
  fts_match both_down quantum = Raised no_fts /\
  (semantic_search tobytes both_down quantum 5 w0).1 = Raised no_fts.
Proof.
  split; [reflexivity|]. split; [reflexivity|]. split; [reflexivity|].
  apply (fallback_failure_propagates tobytes both_down quantum 5 w0
           no_vss no_fts); reflexivity.
Defined.

(** C4 fails as stated: with the vector search and the FTS5 table both
    missing, the caller gets the [sqlite3.OperationalError] of the FTS5
    statement, which is not a [RetrievalError]. *)
Lemma fallback_failure_is_not_retrieval_error :
  (semantic_attempt tobytes both_down quantum 5 w0).1 = Raised no_vss /\
  (fallback_text_search both_down quantum 5 w0).1 = Raised no_fts /\
  ~ (exists e,
        (semantic_search tobytes both_down quantum 5 w0).1 = Raised e /\
        is_RetrievalError e = true).
Proof.
  repeat split; try reflexivity.
  intros (e & He & Hcls). vm_compute in He. injection He as <-.
  discriminate.
Qed.




(** A store that holds notes 1 and 2; the batch replaces the row of note 1
    in the connection, then the insert of note 2 raises.  The committed row
    of note 1 is untouched and the rollback brings it back. *)
Lemma failed_batch_leaves_store_witness :
  (batch_attempt tobytes second_insert_fails three_notes 3 0 w_stored).1
    = Raised table_locked /\
  note_embeddings w_stored !! 1 = Some [1] /\
  conn_rows (batch_attempt tobytes second_insert_fails three_notes 3 0 w_stored).2
    !! 1 = Some (embed "alpha") /\
  embed "alpha" <> [1] /\
  note_embeddings
    (batch_attempt tobytes second_insert_fails three_notes 3 0 w_stored).2
    = note_embeddings w_stored /\
  note_embeddings
    (process_batch tobytes second_insert_fails three_notes 3 0 w_stored).2
    = note_embeddings w_stored /\
  conn_rows
    (process_batch tobytes second_insert_fails three_notes 3 0 w_stored).2
    = note_embeddings w_stored.
Proof.
  split; [reflexivity|]. split; [reflexivity|]. split; [reflexivity|].
  split; [discriminate|].
  apply (failed_batch_leaves_store tobytes second_insert_fails three_notes 3 0
           w_stored table_locked).
  reflexivity.
Defined.

(** Twelve notes in batches of ten: two calls, of 10 and of 2 texts. *)
Lemma one_provider_call_per_batch_witness :
  0 < 10 /\
  requests (add_embeddings_batch tobytes lexical_only twelve_texts 10 w0).2
    = requests w0 ++ batch_calls twelve_texts 10 /\
  map length (batch_calls twelve_texts 10) = [10; 2]%nat.
Proof.
  split; [reflexivity|].
  pose proof (one_provider_call_per_batch tobytes lexical_only twelve_texts 10
                w0 eq_refl) as (Hreq & _ & _ & _ & Hscenario).
  split; [exact Hreq|].
  apply Hscenario; reflexivity.
Defined.

(** C10 fails as stated.  On a store that rejects the inserts a short
    response is not skipped silently: the batch is logged as an error and
    note 1 gets no row.  And when two notes of the batch share an id, the
    first of them is not stored with the first embedding but with the
    second. *)
Lemma short_response_needs_store_and_distinct_ids :
  (embeddings_create short_rejecting 0 embedding_model
     (batch_texts three_notes 3 0) = Returned [embed "alpha"] /\
   log (process_batch tobytes short_rejecting three_notes 3 0 w0).2
     = [(ERROR, "Error processing batch: no such table: note_embeddings")] /\
   note_embeddings (process_batch tobytes short_rejecting three_notes 3 0 w0).2
     !! 1 = None) /\
  (embeddings_create two_answers 0 embedding_model
     (batch_texts twin_notes 3 0) = Returned [embed "alpha"; embed "beta"] /\
   log (process_batch tobytes two_answers twin_notes 3 0 w0).2
     = [(INFO, "Processed batch 1/1")] /\
   note_embeddings (process_batch tobytes two_answers twin_notes 3 0 w0).2 !! 1
     = Some (tobytes (embed "beta")) /\
   tobytes (embed "beta") <> tobytes (embed "alpha")).
Proof.
  split.
  - split; [reflexivity|]. split; vm_compute; reflexivity.
  - split; [reflexivity|]. split; [vm_compute; reflexivity|].
    split; [vm_compute; reflexivity|]. vm_compute. discriminate.
Qed.

(** Three notes answered with one embedding: note 1 is stored, note 3 is
    not. *)
Lemma short_response_skips_rest_witness :
  (length (map embed (take 1 (batch_texts three_notes 3 0)))
     < length (slice three_notes 0 (0 + 3)))%nat /\
  (process_batch tobytes short_answers three_notes 3 0 w0).1 = Returned tt /\
  log (process_batch tobytes short_answers three_notes 3 0 w0).2
    = log w0 ++ [(INFO, processed_message three_notes 3 0)] /\
  note_embeddings (process_batch tobytes short_answers three_notes 3 0 w0).2 !! 1
    = Some (tobytes (embed "alpha")) /\
  note_embeddings (process_batch tobytes short_answers three_notes 3 0 w0).2 !! 3
    = conn_rows w0 !! 3.
Proof.
  assert (Hshort : (length (map embed (take 1 (batch_texts three_notes 3 0)))
                    < length (slice three_notes 0 (0 + 3)))%nat).
  { apply Nat.ltb_lt. reflexivity. }
  split; [exact Hshort|].
  assert (Hnd : NoDup (map fst (slice three_notes 0 (0 + 3)))).
  { apply (bool_decide_unpack (NoDup (map fst (slice three_notes 0 (0 + 3))))).
    vm_compute. reflexivity. }
  destruct (short_response_skips_rest tobytes short_answers three_notes 3 0 w0
              (map embed (take 1 (batch_texts three_notes 3 0)))
              eq_refl Hshort (fun _ _ => eq_refl) eq_refl Hnd)
    as (Hret & Hlog & Hpos & Hskip).
  split; [exact Hret|]. split; [exact Hlog|]. split.
  - apply (Hpos 0%nat 1 (embed "alpha")); reflexivity.
  - apply (Hskip 2%nat 3); [|reflexivity].
    apply Nat.leb_le. reflexivity.
Defined.

(** ** More properties at concrete stores *)

Lemma twelve_notes_distinct :
  NoDup (map (fun n : Z * string * string => n.1.1) twelve_notes).
Proof.
  apply (bool_decide_unpack
           (NoDup (map (fun n : Z * string * string => n.1.1) twelve_notes))).
  vm_compute. reflexivity.
Defined.

Lemma neighbours_distinct : NoDup (map fst neighbours).
Proof.
  apply (bool_decide_unpack (NoDup (map fst neighbours))).
  vm_compute. reflexivity.
Defined.

Lemma every_write_accepted (C : collaborators (list Z) (list Z)) :
  (forall id b, insert_error C id b = None) ->
  (forall rows, commit_error C rows = None) ->
  store_accepts C.
Proof. intros Hins Hcommit. split; assumption. Defined.

(** The vector path at [healthy]: notes 1 and 2, nearest first. *)
Lemma semantic_search_ascending_witness :
  exists rs,
    (semantic_search tobytes healthy quantum 5 w_stored).1 = Returned rs /\
    ascending (scores rs) /\
    log (semantic_search tobytes healthy quantum 5 w_stored).2 = log w_stored.
Proof.
  apply (semantic_search_ascending tobytes healthy quantum 5 w_stored
           (embed quantum) [] neighbours); reflexivity.
Defined.

(** Note 1 is in the answer: it is a note, a neighbour, and stored. *)
Lemma semantic_results_are_stored_notes_witness :
  (1, "title", "body") ∈ notes_table healthy /\
  (1, (1 # 4)%Q) ∈ neighbours /\
  is_Some (note_embeddings w_stored !! 1).
Proof.
  apply (semantic_results_are_stored_notes tobytes healthy quantum 5 w_stored
           (embed quantum) [] neighbours
           [mkSearchResult "title" "body" (1 # 4)%Q 1;
            mkSearchResult "title" "body" (1 # 2)%Q 2]
           (mkSearchResult "title" "body" (1 # 4)%Q 1)).
  - reflexivity.
  - reflexivity.
  - vm_compute. reflexivity.
  - apply list_elem_of_here.
Defined.

(** Neighbour 99 has no note: two results for three neighbours. *)
Lemma semantic_results_distinct_witness :
  NoDup (map note_id
           [mkSearchResult "title" "body" (1 # 4)%Q 1;
            mkSearchResult "title" "body" (1 # 2)%Q 2]) /\
  (length [mkSearchResult "title" "body" (1 # 4)%Q 1;
           mkSearchResult "title" "body" (1 # 2)%Q 2]
   <= length neighbours)%nat.
Proof.
  apply (semantic_results_distinct tobytes healthy quantum 5 w_stored
           (embed quantum) [] neighbours).
  - reflexivity.
  - reflexivity.
  - exact twelve_notes_distinct.
  - exact neighbours_distinct.
  - vm_compute. reflexivity.
Defined.

(** A malformed database file is not an [OperationalError]. *)
Lemma semantic_search_other_database_error_witness :
  (semantic_search tobytes vss_corrupt quantum 5 w0).1 = Raised corrupt /\
  log (semantic_search tobytes vss_corrupt quantum 5 w0).2 = log w0.
Proof.
  apply (semantic_search_other_database_error tobytes vss_corrupt quantum 5 w0
           (embed quantum) [] corrupt); reflexivity.
Defined.

(** A provider that answers with no embedding at all. *)
Lemma semantic_search_empty_response_witness :
  (semantic_search tobytes empty_answer quantum 5 w0).1
    = Raised (Exc IndexError "list index out of range") /\
  log (semantic_search tobytes empty_answer quantum 5 w0).2
    = log w0 ++ [(ERROR, "Error generating embedding: list index out of range")].
Proof.
  apply (semantic_search_empty_response tobytes empty_answer quantum 5 w0).
  reflexivity.
Defined.

(** The trace of a fallback when the vss module is missing. *)
Lemma semantic_search_fallback_log_witness :
  log (semantic_search tobytes lexical_only quantum 5 w0).2
    = log w0 ++ [(ERROR, "Database error during search: " +:+ exc_msg no_vss)].
Proof.
  apply (semantic_search_fallback_log tobytes lexical_only quantum 5 w0
           (embed quantum) [] no_vss); reflexivity.
Defined.

(** Two hits, limit 1: one result. *)
Lemma fallback_text_search_limit_witness :
  (length [mkSearchResult "title" "body" (2 # 1)%Q 1] <= Z.to_nat 1)%nat.
Proof.
  apply (fallback_text_search_limit lexical_only quantum 1 w0
           [mkSearchResult "title" "body" (2 # 1)%Q 1]).
  - discriminate.
  - vm_compute. reflexivity.
Defined.

(** The first fallback result is note 1, hit with rank -2. *)
Lemma fallback_results_are_matching_notes_witness :
  (1, "title", "body") ∈ notes_table lexical_only /\
  exists hits rank,
    fts_match lexical_only quantum = Returned hits /\
    (1, rank) ∈ hits /\
    (2 # 1)%Q = (rank * (-1 # 1))%Q.
Proof.
  apply (fallback_results_are_matching_notes lexical_only quantum 5 w0
           [mkSearchResult "title" "body" (2 # 1)%Q 1;
            mkSearchResult "title" "body" (1 # 1)%Q 2]
           (mkSearchResult "title" "body" (2 # 1)%Q 1)).
  - vm_compute. reflexivity.
  - apply list_elem_of_here.
Defined.

Lemma seven_not_given : 7 ∉ map fst three_notes.
Proof.
  apply (bool_decide_unpack (7 ∉ map fst three_notes)).
  vm_compute. reflexivity.
Defined.

(** Syncing notes 1 to 3 leaves the row of note 7 alone. *)
Lemma sync_touches_only_given_notes_witness :
  note_embeddings
    (add_embeddings_batch tobytes second_call_fails three_notes 2 w_stored).2 !! 7
  = note_embeddings w_stored !! 7.
Proof.
  apply (sync_touches_only_given_notes tobytes second_call_fails three_notes 2
           w_stored 7).
  exact seven_not_given.
Defined.

(** The stored row of note 1 survives a sync on a store that rejects the
    writes. *)
Lemma sync_never_removes_witness :
  is_Some
    (note_embeddings
       (add_embeddings_batch tobytes read_only_store three_notes 2 w_stored).2
     !! 1).
Proof.
  apply (sync_never_removes tobytes read_only_store three_notes 2 w_stored 1).
  exists [1]. reflexivity.
Defined.

Lemma second_call_fails_accepts : store_accepts second_call_fails.
Proof. apply every_write_accepted; reflexivity. Defined.

Lemma healthy_accepts : store_accepts healthy.
Proof. apply every_write_accepted; reflexivity. Defined.

(** Three notes, batches of two, second call raising. *)
Lemma sync_final_table_witness :
  note_embeddings
    (add_embeddings_batch tobytes second_call_fails three_notes 2 w0).2
  = upsert_all tobytes (note_embeddings w0)
      (sync_writes second_call_fails three_notes 2 (length (requests w0))
         (range_loop (Z.to_nat (len three_notes)) 0 (len three_notes) 2)).
Proof.
  apply (sync_final_table tobytes second_call_fails three_notes 2 w0).
  - reflexivity.
  - exact second_call_fails_accepts.
Defined.

Lemma healthy_provider_complete :
  forall (k : nat) (ts : list string), exists vs,
    embeddings_create healthy k embedding_model ts = Returned vs /\
    length vs = length ts.
Proof.
  intros k ts. exists (map embed ts). split; [reflexivity|apply length_map].
Defined.

(** Note 3, alone in the second batch, is embedded when all goes well. *)
Lemma sync_embeds_every_note_witness :
  is_Some
    (note_embeddings (add_embeddings_batch tobytes healthy three_notes 2 w0).2
     !! 3).
Proof.
  apply (sync_embeds_every_note tobytes healthy three_notes 2 w0 3).
  - reflexivity.
  - exact healthy_accepts.
  - exact healthy_provider_complete.
  - apply (bool_decide_unpack (3 ∈ map fst three_notes)).
    vm_compute. reflexivity.
Defined.

(** A second sync of the same three notes changes nothing. *)
Lemma sync_twice_same_table_witness :
  note_embeddings
    (add_embeddings_batch tobytes healthy three_notes 2
       (add_embeddings_batch tobytes healthy three_notes 2 w0).2).2
  = note_embeddings (add_embeddings_batch tobytes healthy three_notes 2 w0).2.
Proof.
  apply (sync_twice_same_table tobytes healthy three_notes 2 w0).
  - reflexivity.
  - exact healthy_accepts.
  - intros k ts. reflexivity.
Defined.

(** Two batches, one of them failing: two pauses. *)
Lemma sync_sleeps_once_per_batch_witness :
  sleeps (add_embeddings_batch tobytes second_call_fails three_notes 2 w0).2
  = (sleeps w0 + Z.to_nat ((len three_notes + 2 - 1) / 2))%nat.
Proof.
  apply (sync_sleeps_once_per_batch tobytes second_call_fails three_notes 2 w0).
  reflexivity.
Defined.

(** Two batches, one of them failing: two log records. *)
Lemma sync_logs_one_record_per_batch_witness :
  exists recs,
    log (add_embeddings_batch tobytes second_call_fails three_notes 2 w0).2
      = log w0 ++ recs /\
    Forall2 (fun i r =>
               r = (INFO, processed_message three_notes 2 i) \/
               exists e, r = (ERROR, batch_error_message e))
            (range_loop (Z.to_nat (len three_notes)) 0 (len three_notes) 2)
            recs.
Proof.
  apply (sync_logs_one_record_per_batch tobytes second_call_fails three_notes 2
           w0).
  reflexivity.
Defined.

(** The second of two batches starts at index 2 and reads 2/2. *)
Lemma processed_message_counts_witness :
  processed_message three_notes 2 2
  = "Processed batch " +:+ pretty (Z.of_nat 1 + 1) +:+ "/"
      +:+ pretty (Z.of_nat (length (batch_calls three_notes 2))).
Proof.
  apply (processed_message_counts three_notes 2 1 2); reflexivity.
Defined.

(** Batch size -1. *)
Lemma sync_negative_batch_size_witness :
  (add_embeddings_batch tobytes healthy three_notes (-1) w0).1 = Returned tt /\
  requests (add_embeddings_batch tobytes healthy three_notes (-1) w0).2
    = requests w0 /\
  note_embeddings (add_embeddings_batch tobytes healthy three_notes (-1) w0).2
    = note_embeddings w0 /\
  log (add_embeddings_batch tobytes healthy three_notes (-1) w0).2 = log w0 /\
  sleeps (add_embeddings_batch tobytes healthy three_notes (-1) w0).2
    = sleeps w0.
Proof.
  apply (sync_negative_batch_size tobytes healthy three_notes (-1) w0).
  reflexivity.
Defined.

(** The [notes] table is missing. *)
Lemma update_all_embeddings_unreadable_notes_witness :
  (update_all_embeddings tobytes notes_unreadable w0).1 = Raised no_notes_table /\
  requests (update_all_embeddings tobytes notes_unreadable w0).2 = requests w0 /\
  note_embeddings (update_all_embeddings tobytes notes_unreadable w0).2
    = note_embeddings w0 /\
  log (update_all_embeddings tobytes notes_unreadable w0).2 = log w0.
Proof.
  apply (update_all_embeddings_unreadable_notes tobytes notes_unreadable w0
           no_notes_table).
  reflexivity.
Defined.

(** The [notes] table is empty. *)
Lemma update_all_embeddings_no_notes_witness :
  (update_all_embeddings tobytes no_notes w0).1 = Returned tt /\
  log (update_all_embeddings tobytes no_notes w0).2
    = log w0 ++ [(INFO, "Updating embeddings for 0 notes")] /\
  requests (update_all_embeddings tobytes no_notes w0).2 = requests w0 /\
  note_embeddings (update_all_embeddings tobytes no_notes w0).2
    = note_embeddings w0.
Proof.
  apply (update_all_embeddings_no_notes tobytes no_notes w0); reflexivity.
Defined.

(** Twelve notes: the texts are ["title body"], twelve times. *)
Lemma update_all_embeddings_texts_witness :
  exists calls,
    requests (update_all_embeddings tobytes healthy w0).2 = requests w0 ++ calls /\
    concat calls
      = map (fun n : Z * string * string => n.1.2 +:+ " " +:+ n.2)
            (notes_table healthy) /\
    Forall (fun texts => (length texts <= 10)%nat) calls.
Proof.
  apply (update_all_embeddings_texts tobytes healthy w0). reflexivity.
Defined.

(** A provider that returns two embeddings for a batch of one note. *)
Lemma surplus_embeddings_ignored_witness :
  note_embeddings (process_batch tobytes healthy three_notes 1 0 w0).2
    = upsert_all tobytes (conn_rows w0)
        (zip (slice three_notes 0 (0 + 1))
             (take (length (slice three_notes 0 (0 + 1)))
                   [embed "alpha"; embed "surplus"])) /\
  log (process_batch tobytes healthy three_notes 1 0 w0).2
    = log w0 ++ [(INFO, processed_message three_notes 1 0)].
Proof.
  apply (surplus_embeddings_ignored tobytes
           {| embeddings_create := fun _ _ _ =>
                Returned [embed "alpha"; embed "surplus"];
              notes_table := twelve_notes;
              select_notes_error := None;
              vss_search := fun _ _ _ => Returned [];
              fts_match := fun _ => Returned fts_hits;
              insert_error := fun _ _ => None;
              commit_error := fun _ => None |}
           three_notes 1 0 w0 [embed "alpha"; embed "surplus"]).
  - apply every_write_accepted; reflexivity.
  - reflexivity.
Defined.

(** A missing [note_embeddings] table: two provider calls, nothing stored. *)
Lemma sync_rejecting_store_witness :
  (add_embeddings_batch tobytes read_only_store three_notes 2 w_stored).1
    = Returned tt /\
  requests (add_embeddings_batch tobytes read_only_store three_notes 2 w_stored).2
    = requests w_stored ++ batch_calls three_notes 2 /\
  note_embeddings
    (add_embeddings_batch tobytes read_only_store three_notes 2 w_stored).2
    = note_embeddings w_stored.
Proof.
  apply (sync_rejecting_store tobytes read_only_store three_notes 2 w_stored).
  - reflexivity.
  - intros id x. eexists. reflexivity.
Defined.

(** The first batch is stored although the second one fails. *)
Lemma good_batch_is_stored_witness :
  is_Some
    (note_embeddings
       (add_embeddings_batch tobytes second_call_fails three_notes 2 w0).2
     !! (2, "beta").1).
Proof.
  apply (good_batch_is_stored tobytes second_call_fails three_notes 2 w0
           0%nat 0 [embed "alpha"; embed "beta"] (2, "beta")).
  - reflexivity.
  - exact second_call_fails_accepts.
  - reflexivity.
  - reflexivity.
  - reflexivity.
  - apply (bool_decide_unpack ((2, "beta") ∈ slice three_notes 0 (0 + 2))).
    vm_compute. reflexivity.
Defined.
